(** * gotftp: the per-session TFTP engine of handler.go

    A shallow embedding of [handler.go] (package gotftp): the option
    negotiator, the reliable exchange primitive [writeAndWaitForPacket],
    the RRQ block loop and the error paths, followed by the properties
    the specification states about them.

    Conventions.
    - A Go [int] is a [Z]; a [uint16] is a [Z] kept in [0, 65536) with the
      wrap-around written out; a [[]byte] is a [list byte]; a
      [map[string]string] is a [gmap string string].
    - The transport ([packetReader], [packetWriter]), the wall clock and the
      file backend are the environment.  The transport and the clock live in
      a [World] whose scripts say what each call returns and whose [trace]
      records every call in order.
    - Loops that Go leaves unbounded take a [fuel] argument; running out of
      it is the outcome [OutOfFuel], which no theorem mistakes for a result. *)

From Stdlib Require Import ZArith Lia String Ascii List.
From Stdlib Require Import DecimalString.
From stdpp Require Import base option list strings gmap.

Local Open Scope Z_scope.
Local Open Scope string_scope.

(** ** Errors *)

(** The two causes a [*strconv.NumError] wraps. *)
Inductive numErr := ErrSyntax | ErrRange.

(** Go's [error] values as the handler meets them.  The named constructors
    are the sentinels the code compares with [==]; [NumError] is what
    [strconv.Atoi] returns; [errorString] is any other error, known by its
    text alone. *)
Inductive error :=
| ErrTimeout                                  (* errors.New("timeout") *)
| io_EOF
| os_ErrNotExist
| os_ErrPermission
| NumError (Func Num : string) (Err : numErr)
| errorString (s : string).

#[global] Instance numErr_eq_dec : EqDecision numErr.
Proof. solve_decision. Defined.

#[global] Instance error_eq_dec : EqDecision error.
Proof. solve_decision. Defined.

Module strconv.

Definition intSize : Z := 64.
Definition maxUint64 : Z := 2 ^ 64 - 1.

Definition hexDigit (n : N) : ascii :=
  match n with
  | 0%N => "0" | 1%N => "1" | 2%N => "2" | 3%N => "3" | 4%N => "4"
  | 5%N => "5" | 6%N => "6" | 7%N => "7" | 8%N => "8" | 9%N => "9"
  | 10%N => "a" | 11%N => "b" | 12%N => "c" | 13%N => "d" | 14%N => "e"
  | _ => "f"
  end%char.

(** [strconv.Quote] on single bytes: printable ASCII is copied, the quote
    and the backslash are escaped, control bytes take Go's short escapes
    or [\xNN].  Bytes from 0x80 up are written as [\xNN], which is what Go
    does when they are not part of a printable UTF-8 rune. *)
Definition bslash : ascii := ascii_of_N 92.
Definition esc (c : ascii) : string := String bslash (String c EmptyString).

Definition quoteByte (c : ascii) : string :=
  let n := N_of_ascii c in
  if (n =? 34)%N then esc c
  else if (n =? 92)%N then esc c
  else if (n =? 7)%N then esc "a"
  else if (n =? 8)%N then esc "b"
  else if (n =? 12)%N then esc "f"
  else if (n =? 10)%N then esc "n"
  else if (n =? 13)%N then esc "r"
  else if (n =? 9)%N then esc "t"
  else if (n =? 11)%N then esc "v"
  else if ((32 <=? n) && (n <? 127))%N then String c EmptyString
  else String bslash
         (String "x" (String (hexDigit (n / 16))
                        (String (hexDigit (n mod 16)) EmptyString))).

Fixpoint quoteBody (s : string) : string :=
  match s with
  | EmptyString => EmptyString
  | String c r => quoteByte c ++ quoteBody r
  end.

Definition dquote : string := String (ascii_of_N 34) EmptyString.

Definition Quote (s : string) : string := dquote ++ quoteBody s ++ dquote.

Definition numErrText (e : numErr) : string :=
  match e with
  | ErrSyntax => "invalid syntax"
  | ErrRange => "value out of range"
  end.

(** The digit loop of [ParseUint] in base 10: a byte that is not a decimal
    digit is a syntax error at once, a value that leaves [uint64] a range
    error at once. *)
Fixpoint parseDigits (acc : Z) (s : string) : Z + numErr :=
  match s with
  | EmptyString => inl acc
  | String c r =>
      let d := Z.of_N (N_of_ascii c) - 48 in
      if ((0 <=? d) && (d <=? 9))%Z then
        let n1 := acc * 10 + d in
        if (n1 >? maxUint64)%Z then inr ErrRange else parseDigits n1 r
      else inr ErrSyntax
  end.

Definition isSign (c : ascii) : bool :=
  (N_of_ascii c =? 43)%N || (N_of_ascii c =? 45)%N.

(** [strconv.Atoi]: an optional sign, then one or more decimal digits,
    the value within the range of [int]. *)
Definition Atoi (s0 : string) : Z + error :=
  let fail k := inr (NumError "Atoi" s0 k) in
  match s0 with
  | EmptyString => fail ErrSyntax
  | String c r =>
      let neg := (N_of_ascii c =? 45)%N in
      let s := if isSign c then r else s0 in
      match s with
      | EmptyString => fail ErrSyntax
      | _ =>
          match parseDigits 0 s with
          | inr k => fail k
          | inl un =>
              let cutoff := 2 ^ (intSize - 1) in
              if negb neg && (un >=? cutoff)%Z then fail ErrRange
              else if neg && (un >? cutoff)%Z then fail ErrRange
              else inl (if neg then - un else un)
          end
      end
  end.

(** [strconv.Itoa]: the decimal text of an [int]. *)
Definition Itoa (i : Z) : string := NilZero.string_of_int (Z.to_int i).

End strconv.

(** [err.Error()]. *)
Definition Error (e : error) : string :=
  match e with
  | ErrTimeout => "timeout"
  | io_EOF => "EOF"
  | os_ErrNotExist => "file does not exist"
  | os_ErrPermission => "permission denied"
  | NumError f n k =>
      "strconv." ++ f ++ ": parsing " ++ strconv.Quote n ++ ": "
        ++ strconv.numErrText k
  | errorString s => s
  end.

(** ** Packets *)

(** Modelled from the spec: the packet types, which handler.go uses and
    another file of the package declares.  Each constructor carries the
    fields handler.go reads or sets: a request has a file name and its
    options, DATA and ACK a 16-bit block number, ERROR a 16-bit code and a
    message, OACK the accepted options. *)
Inductive packet :=
| packetRRQ (filename : string) (options : gmap string string)
| packetWRQ (filename : string) (options : gmap string string)
| packetDATA (blockNr : Z) (data : list Byte.byte)
| packetACK (blockNr : Z)
| packetERROR (errorCode : Z) (errorMessage : string)
| packetOACK (options : gmap string string).

#[global] Instance byte_eq_dec : EqDecision Byte.byte := Byte.byte_eq_dec.

#[global] Instance packet_eq_dec : EqDecision packet.
Proof. solve_decision. Defined.

Definition packetValidator := packet -> bool.

(** ** Session state *)

(** [net.UDPAddr]. *)
Record UDPAddr := mkUDPAddr {
  IP : list Byte.byte;
  Port : Z;
  Zone : string
}.

#[global] Instance UDPAddr_eq_dec : EqDecision UDPAddr.
Proof. solve_decision. Defined.

(** [&net.UDPAddr{}]: the zero value. *)
Definition zeroUDPAddr : UDPAddr := mkUDPAddr [] 0 EmptyString.

(** The mutable fields of [session]; the embedded reader and writer are the
    [World], the handler is a parameter of the functions that use it. *)
Record session := mkSession {
  blksize : Z;
  timeout : Z
}.

(** The state [serve] starts every session in. *)
Definition newSession : session := mkSession 512 3.

(** ** Option negotiation *)

(** The three-way [if] of [negotiate]. *)
Definition clamp (i lo hi : Z) : Z :=
  if (i <? lo)%Z then lo else if (i >? hi)%Z then hi else i.

(** [negotiate]: the accepted options or the error, and the session as the
    call leaves it. *)
Definition negotiate (s : session) (o : gmap string string)
  : (gmap string string + error) * session :=
  let oack : gmap string string := ∅ in
  let step1 : (gmap string string * session) + (error * session) :=
    match o !! "blksize" with
    | Some v =>
        match strconv.Atoi v with
        | inr err => inr (err, s)
        | inl i =>
            let s1 := mkSession (clamp i 8 65464) (timeout s) in
            inl (<["blksize" := strconv.Itoa (blksize s1)]> oack, s1)
        end
    | None => inl (oack, s)
    end in
  match step1 with
  | inr (err, s1) => (inr err, s1)
  | inl (oack1, s1) =>
      match o !! "timeout" with
      | Some v =>
          match strconv.Atoi v with
          | inr err => (inr err, s1)
          | inl i =>
              let s2 := mkSession (blksize s1) (clamp i 1 255) in
              (inl (<["timeout" := strconv.Itoa (timeout s2)]> oack1), s2)
          end
      | None => (inl oack1, s1)
      end
  end.

(** [ackValidator]. *)
Definition ackValidator (blockNr : Z) : packetValidator :=
  fun p =>
    match p with
    | packetACK b => (b =? blockNr)%Z
    | _ => false
    end.

(** ** The environment *)

(** What one call of [s.read] hands back, and the time the call took, in
    nanoseconds. *)
Record Incoming := mkIncoming {
  elapsed : Z;
  reply : packet + error
}.

(** The calls a session makes on its collaborators, as the [trace] records
    them: the argument and, for the transport, the result. *)
Inductive Event :=
| EvRead (d : Z) (r : packet + error)
| EvWrite (p : packet) (r : option error)
| EvReadFile (peer : UDPAddr) (filename : string)
| EvClose.

(** The transport of one session and the clock.  [remote] is the peer the
    reader and the writer are bound to.  [inbox] scripts the successive
    [read] calls, and a peer that has nothing more to say lets every later
    [read] time out; [wres] scripts the successive [write] calls, which
    succeed once the script is used up. *)
Record World := mkWorld {
  remote : UDPAddr;
  inbox : list Incoming;
  wres : list (option error);
  clock : Z;
  trace : list Event
}.

(** The outcome of running a piece of the handler: a value and the world it
    leaves, a Go panic, or a loop cut short by its fuel. *)
Inductive Res (A : Type) :=
| Ok (a : A) (w : World)
| Panic (w : World)
| OutOfFuel.

Arguments Ok {A} a w.
Arguments Panic {A} w.
Arguments OutOfFuel {A}.

Definition M (A : Type) : Type := World -> Res A.

Definition ret {A} (a : A) : M A := fun w => Ok a w.

Definition bind {A B} (m : M A) (k : A -> M B) : M B :=
  fun w =>
    match m w with
    | Ok a w1 => k a w1
    | Panic w1 => Panic w1
    | OutOfFuel => OutOfFuel
    end.

Notation "x <- m ;; k" := (bind m (fun x => k))
  (at level 100, m at next level, right associativity).
Notation "m ;;; k" := (bind m (fun _ => k))
  (at level 100, k at level 200, right associativity).

Definition panic {A} : M A := fun w => Panic w.
Definition outOfFuel {A} : M A := fun _ => OutOfFuel.

Definition record (e : Event) : M unit :=
  fun w =>
    Ok tt (mkWorld (remote w) (inbox w) (wres w) (clock w) (trace w ++ [e])).

(** [s.read(d)]. *)
Definition read (d : Z) : M (packet + error) :=
  fun w =>
    match inbox w with
    | [] =>
        Ok (inr ErrTimeout)
           (mkWorld (remote w) [] (wres w) (clock w + d)
                    (trace w ++ [EvRead d (inr ErrTimeout)]))
    | i :: rest =>
        Ok (reply i)
           (mkWorld (remote w) rest (wres w) (clock w + elapsed i)
                    (trace w ++ [EvRead d (reply i)]))
    end.

(** [s.write(p)]. *)
Definition write (p : packet) : M (option error) :=
  fun w =>
    match wres w with
    | [] =>
        Ok None (mkWorld (remote w) (inbox w) [] (clock w)
                         (trace w ++ [EvWrite p None]))
    | r :: rest =>
        Ok r (mkWorld (remote w) (inbox w) rest (clock w)
                      (trace w ++ [EvWrite p r]))
    end.

(** [time.Now()], in nanoseconds. *)
Definition Now : M Z := fun w => Ok (clock w) w.

(** [time.Second]. *)
Definition Second : Z := 1000000000.

(** ** The session *)

(** [writeError]. *)
Definition writeError (code : Z) (message : string) : M (option error) :=
  write (packetERROR code message).

(** How a loop body hands control back: on to what follows the loop
    ([break], or the condition turned false), or out of the function. *)
Inductive ctl (A : Type) :=
| Next
| Return (a : A).

Arguments Next {A}.
Arguments Return {A} a.

(** The inner loop of [writeAndWaitForPacket], lines 101-118: read until the
    deadline [end_]. *)
Fixpoint awaitReply (fuel : nat) (v : packetValidator) (end_ now : Z)
  : M (ctl (packet + error)) :=
  match fuel with
  | O => outOfFuel
  | S fuel' =>
      if (now <? end_)%Z then
        r <- read (end_ - now) ;;
        match r with
        | inr err =>
            if decide (err = ErrTimeout) then ret Next
            else writeError 0 (Error err) ;;; ret (Return (inr err))
        | inl p =>
            if v p then ret (Return (inl p))
            else now' <- Now ;; awaitReply fuel' v end_ now'
        end
      else ret Next
  end.

(** The outer loop of [writeAndWaitForPacket] with [n] rounds left. *)
Fixpoint attempts (n : nat) (fuel : nat) (s : session) (p : packet)
  (v : packetValidator) : M (packet + error) :=
  match n with
  | O => ret (inr ErrTimeout)
  | S n' =>
      err <- write p ;;
      match err with
      | Some e => ret (inr e)
      | None =>
          now <- Now ;;
          c <- awaitReply fuel v (now + timeout s * Second) now ;;
          match c with
          | Return r => ret r
          | Next => attempts n' fuel s p v
          end
      end
  end.

(** [writeAndWaitForPacket]. *)
Definition writeAndWaitForPacket (fuel : nat) (s : session) (p : packet)
  (v : packetValidator) : M (packet + error) :=
  attempts 3 fuel s p v.

(** [serveWRQ]. *)
Definition serveWRQ : M unit :=
  writeError 0 "not supported" ;;; ret tt.

(** [io.Reader] as [serveRRQ] uses it: [Read r n] is one call with a buffer
    of [n] bytes, giving the bytes read, the error and the reader after the
    call.  It never fills more than the buffer. *)
Class ReadCloser (R : Type) := {
  Read : R -> nat -> (list Byte.byte * option error) * R;
  Read_fits : forall r n, (length (Read r n).1.1 <= n)%nat
}.

(** The [Handler] interface.  The session never calls [WriteFile]. *)
Record Handler (R : Type) := mkHandler {
  ReadFile : UDPAddr -> string -> R + error
}.

Arguments ReadFile {R} h peer filename.
Arguments mkHandler {R} ReadFile.

(** [defer]: [d] runs when [body] is over, also when it panicked. *)
Definition deferred {A} (d : M unit) (body : M A) : M A :=
  fun w =>
    match body w with
    | Ok a w1 => (d ;;; ret a) w1
    | Panic w1 => (d ;;; panic) w1
    | OutOfFuel => OutOfFuel
    end.

Section Serve.

Context {R : Type} `{ReadCloser R}.
Variable h : Handler R.

(** The block loop of [serveRRQ], lines 227-249, from block [blockNr] on;
    [n] bounds its rounds. *)
Fixpoint sendBlocks (n : nat) (fuel : nat) (s : session) (rc : R)
  (blockNr : Z) : M (ctl unit) :=
  match n with
  | O => outOfFuel
  | S n' =>
      let '((data, err), rc') := Read rc (Z.to_nat (blksize s)) in
      if decide (length data = 0%nat) then
        match err with
        | Some e =>
            if decide (e = io_EOF) then ret Next
            else writeError 0 (Error e) ;;; ret (Return tt)
        | None => panic
        end
      else
        r <- writeAndWaitForPacket fuel s (packetDATA blockNr data)
               (ackValidator blockNr) ;;
        match r with
        | inr _ => ret (Return tt)
        | inl _ => sendBlocks n' fuel s rc' ((blockNr + 1) mod 65536)
        end
  end.

(** [serveRRQ]. *)
Definition serveRRQ (fuel : nat) (s : session) (filename : string)
  (options : gmap string string) : M unit :=
  record (EvReadFile zeroUDPAddr filename) ;;;
  match ReadFile h zeroUDPAddr filename with
  | inr err =>
      (if decide (err = os_ErrNotExist) then writeError 1 (Error err)
       else if decide (err = os_ErrPermission) then writeError 2 (Error err)
       else writeError 0 (Error err)) ;;;
      ret tt
  | inl rc =>
      deferred (record EvClose)
        (let transfer s := sendBlocks fuel fuel s rc 1 ;;; ret tt in
         if decide (0 < size options)%nat then
           let '(res, s1) := negotiate s options in
           match res with
           | inr err => writeError 8 (Error err) ;;; ret tt
           | inl accepted =>
               r <- writeAndWaitForPacket fuel s1 (packetOACK accepted)
                      (ackValidator 0) ;;
               match r with
               | inr _ => ret tt
               | inl _ => transfer s1
               end
           end
         else transfer s)
  end.

(** [session.serve], on the session [serve] builds. *)
Definition serve (fuel : nat) : M unit :=
  let s := newSession in
  r <- read 0 ;;
  match r with
  | inr err => writeError 0 (Error err) ;;; ret tt
  | inl (packetRRQ filename options) => serveRRQ fuel s filename options
  | inl (packetWRQ _ _) => serveWRQ
  | inl _ => writeError 4 EmptyString ;;; ret tt
  end.

End Serve.

(** ** A file behind the handler *)

(** A reader over the bytes of a file, as [os.File] reads: up to a
    buffer of bytes per call, then [0, io.EOF]. *)
Definition fileRead (r : list Byte.byte) (n : nat)
  : (list Byte.byte * option error) * list Byte.byte :=
  match r with
  | [] => (([], Some io_EOF), [])
  | _ => ((take n r, None), drop n r)
  end.

#[global] Program Instance fileStream : ReadCloser (list Byte.byte) := {
  Read := fileRead
}.
Next Obligation.
  intros [|b r] n; simpl; [lia|].
  rewrite length_take. lia.
Qed.

(** A handler over a directory of files: a name it does not hold is
    [os.ErrNotExist]. *)
Definition dirHandler (fs : gmap string (list Byte.byte))
  : Handler (list Byte.byte) :=
  mkHandler (fun _ name =>
    match fs !! name with
    | Some c => inl c
    | None => inr os_ErrNotExist
    end).

(** ** Reading a trace *)

(** The packets written, in order. *)
Definition sent (tr : list Event) : list packet :=
  flat_map (fun e => match e with EvWrite p _ => [p] | _ => [] end) tr.

Definition isDATA (p : packet) : bool :=
  match p with packetDATA _ _ => true | _ => false end.

Definition isERROR (p : packet) : bool :=
  match p with packetERROR _ _ => true | _ => false end.

Definition isOACK (p : packet) : bool :=
  match p with packetOACK _ => true | _ => false end.

(** ** What one exchange may leave in the trace *)

(** The events of one run of the inner loop, by the way the loop ends: the
    deadline passes, a read times out, a reply is accepted, a read fails;
    before that, any number of packets the validator turned down. *)
Inductive AwaitShape (v : packetValidator)
  : ctl (packet + error) -> list Event -> Prop :=
| AS_expired : AwaitShape v Next []
| AS_timeout d : AwaitShape v Next [EvRead d (inr ErrTimeout)]
| AS_accept d p :
    v p = true -> AwaitShape v (Return (inl p)) [EvRead d (inl p)]
| AS_fail d e r :
    e <> ErrTimeout ->
    AwaitShape v (Return (inr e))
      [EvRead d (inr e); EvWrite (packetERROR 0 (Error e)) r]
| AS_discard d p c tr :
    v p = false -> AwaitShape v c tr -> AwaitShape v c (EvRead d (inl p) :: tr).

(** The events of [n] rounds of the outer loop. *)
Inductive AttemptsShape (p : packet) (v : packetValidator)
  : nat -> packet + error -> list Event -> Prop :=
| AT_exhausted : AttemptsShape p v 0 (inr ErrTimeout) []
| AT_wfail n e : AttemptsShape p v (S n) (inr e) [EvWrite p (Some e)]
| AT_return n r tr :
    AwaitShape v (Return r) tr ->
    AttemptsShape p v (S n) r (EvWrite p None :: tr)
| AT_next n r tr tr' :
    AwaitShape v Next tr -> AttemptsShape p v n r tr' ->
    AttemptsShape p v (S n) r (EvWrite p None :: tr ++ tr').

(** An event that leaves the exchange waiting: a write that went out, a read
    that timed out, a reply the validator turned down. *)
Definition quiet (v : packetValidator) (e : Event) : Prop :=
  match e with
  | EvRead _ (inl q) => v q = false
  | EvRead _ (inr err) => err = ErrTimeout
  | EvWrite _ r => r = None
  | _ => True
  end.

(** The events of the transport. *)
Definition onTransport (e : Event) : Prop :=
  match e with
  | EvRead _ _ | EvWrite _ _ => True
  | _ => False
  end.

(** ** The blocks of a file *)

(** Block [k] (from 0) of the content [c] cut in blocks of [B] bytes. *)
Definition block (B : nat) (c : list Byte.byte) (k : nat) : list Byte.byte :=
  take B (drop (k * B) c).

(** The number of non-empty blocks of [L] bytes: [L / B] rounded up. *)
Definition nblocks (B L : nat) : nat := ((L + B - 1) / B)%nat.

(** The DATA packets of the content [c], the first one numbered [bn], the
    numbers counted modulo 65536. *)
Definition dataBlocks (B : nat) (bn : Z) (c : list Byte.byte) : list packet :=
  map (fun k => packetDATA ((bn + Z.of_nat k) mod 65536) (block B c k))
      (seq 0 (nblocks B (length c))).

(** The same packets, each written as often as [reps] says. *)
Definition repeated (ps : list packet) (reps : list nat) : list packet :=
  concat (zip_with (fun p r => repeat p r) ps reps).

(** An event other than a call of [ReadFile]. *)
Definition notReadFile (e : Event) : Prop :=
  match e with
  | EvReadFile _ _ => False
  | _ => True
  end.

(** ** Sample sessions *)

(** A peer at 192.0.2.7, port 1069. *)
Definition peerA : UDPAddr :=
  mkUDPAddr [Byte.xc0; Byte.x00; Byte.x02; Byte.x07] 1069 EmptyString.

(** A file of exactly one default block, and a short one. *)
Definition file512 : list Byte.byte := repeat Byte.x2a 512.
Definition file16 : list Byte.byte := repeat Byte.x2a 16.
Definition file5 : list Byte.byte :=
  [Byte.x68; Byte.x65; Byte.x6c; Byte.x6c; Byte.x6f].

Definition sampleDir : gmap string (list Byte.byte) :=
  {[ "boot.img" := file512; "motd" := file5 ]}.

(** A datagram from the peer, a millisecond after the read began. *)
Definition from (p : packet) : Incoming := mkIncoming 1000000 (inl p).

(** A world in which [peerA] sends what [inb] lists and then falls silent,
    and every write goes out. *)
Definition sampleWorld (inb : list Incoming) : World :=
  mkWorld peerA inb [] 0 [].

Definition sampleOptions : gmap string string :=
  {[ "blksize" := "100000"; "timeout" := "0" ]}.

(** The acknowledgement a peer owes for a DATA packet. *)
Definition ackOf (p : packet) : packet :=
  match p with
  | packetDATA b _ => packetACK b
  | _ => p
  end.

(** ** Reading the packets of a transfer *)

(** DATA packets for the payloads [ds], numbered as the block loop counts:
    from [bn], one up per block, wrapping as a [uint16] does. *)
Fixpoint numbered (bn : Z) (ds : list (list Byte.byte)) : list packet :=
  match ds with
  | [] => []
  | d :: ds' => packetDATA bn d :: numbered ((bn + 1) mod 65536) ds'
  end.


(** The write of an ERROR packet. *)
Definition isErrorWrite (e : Event) : Prop :=
  match e with
  | EvWrite (packetERROR _ _) _ => True
  | _ => False
  end.

(** A reply that times out after [dt] nanoseconds. *)
Definition silence (dt : Z) : Incoming := mkIncoming dt (inr ErrTimeout).

(** The options [negotiate] knows. *)
Definition recognised (k : string) : Prop := k = "blksize" \/ k = "timeout".

(** The ranges of RFC 2348 and RFC 2349. *)
Definition inRange (s : session) : Prop :=
  8 <= blksize s <= 65464 /\ 1 <= timeout s <= 255.

(** [f] holds on the [n] integers from [i] on. *)
Fixpoint allFrom (f : Z -> bool) (n : nat) (i : Z) : bool :=
  match n with
  | O => true
  | S n' => f i && allFrom f n' (i + 1)
  end.

(** [strconv.Atoi] reads back what [strconv.Itoa] wrote for [i]. *)
Definition readsBack (i : Z) : bool :=
  match strconv.Atoi (strconv.Itoa i) with
  | inl j => (j =? i)%Z
  | inr _ => false
  end.

(** A trace in which an ERROR packet, if one is written at all, is written
    once and is the last event. *)
Definition errorLast (tr : list Event) : Prop :=
  exists pre mid : list Event,
    tr = (pre ++ mid)%list /\
    Forall (fun e => ~ isErrorWrite e) pre /\
    (mid = [] \/ exists c m r, mid = [EvWrite (packetERROR c m) r]).

(** A read is asked to wait a positive time, and not beyond [T]. *)
Definition readWithin (T : Z) (e : Event) : Prop :=
  match e with
  | EvRead d _ => 0 < d <= T
  | _ => True
  end.

(** A read is asked to wait a positive time. *)
Definition readPositive (e : Event) : Prop :=
  match e with
  | EvRead d _ => 0 < d
  | _ => True
  end.

(** A world in which the first write fails. *)
Definition brokenWorld : World :=
  mkWorld peerA [] [Some (errorString "network is unreachable")] 0 [].

(** A directory with an empty file in it. *)
Definition emptyDir : gmap string (list Byte.byte) := {[ "empty" := [] ]}.

(** * Properties *)

Local Open Scope list_scope.

(** ** The models at work *)

Example Atoi_plain : strconv.Atoi "512" = inl 512.
Proof. reflexivity. Qed.

Example Atoi_negative : strconv.Atoi "-7" = inl (-7).
Proof. reflexivity. Qed.

Example Atoi_min_int : strconv.Atoi "-9223372036854775808" = inl (- 2 ^ 63).
Proof. reflexivity. Qed.

Example Atoi_out_of_range :
  strconv.Atoi "9223372036854775808"
  = inr (NumError "Atoi" "9223372036854775808" ErrRange).
Proof. reflexivity. Qed.

Example Atoi_sign_only :
  strconv.Atoi "+" = inr (NumError "Atoi" "+" ErrSyntax).
Proof. reflexivity. Qed.

Example Atoi_trailing_letter :
  strconv.Atoi "12a" = inr (NumError "Atoi" "12a" ErrSyntax).
Proof. reflexivity. Qed.

Example Itoa_plain : strconv.Itoa 65464 = "65464".
Proof. reflexivity. Qed.

Example Itoa_zero : strconv.Itoa 0 = "0".
Proof. reflexivity. Qed.

Example Error_of_NumError :
  Error (NumError "Atoi" "12a" ErrSyntax)
  = ("strconv.Atoi: parsing " ++ strconv.dquote ++ "12a" ++ strconv.dquote
       ++ ": invalid syntax")%string.
Proof. reflexivity. Qed.

Example negotiate_both :
  negotiate newSession sampleOptions
  = (inl {[ "blksize" := "65464"; "timeout" := "1" ]}, mkSession 65464 1).
Proof. vm_compute. reflexivity. Qed.

(** A whole session: a request for the five bytes of "motd", one block,
    acknowledged. *)
Example serve_motd :
  serve (dirHandler sampleDir) 4
    (sampleWorld [from (packetRRQ "motd" ∅); from (packetACK 1)])
  = Ok tt
      (mkWorld peerA [] [] 2000000
         [EvRead 0 (inl (packetRRQ "motd" ∅));
          EvReadFile zeroUDPAddr "motd";
          EvWrite (packetDATA 1 file5) None;
          EvRead (3 * Second) (inl (packetACK 1));
          EvClose]).
Proof. vm_compute. reflexivity. Qed.

(** The same request when the acknowledgement never comes: the block goes
    out three times and the session gives up. *)
Example serve_motd_silence :
  serve (dirHandler sampleDir) 4 (sampleWorld [from (packetRRQ "motd" ∅)])
  = Ok tt
      (mkWorld peerA [] [] (1000000 + 9 * Second)
         [EvRead 0 (inl (packetRRQ "motd" ∅));
          EvReadFile zeroUDPAddr "motd";
          EvWrite (packetDATA 1 file5) None;
          EvRead (3 * Second) (inr ErrTimeout);
          EvWrite (packetDATA 1 file5) None;
          EvRead (3 * Second) (inr ErrTimeout);
          EvWrite (packetDATA 1 file5) None;
          EvRead (3 * Second) (inr ErrTimeout);
          EvClose]).
Proof. vm_compute. reflexivity. Qed.

(** ** The monad *)

Lemma bind_Ok {A B} (m : M A) (k : A -> M B) w b w' :
  bind m k w = Ok b w' ->
  exists a w1, m w = Ok a w1 /\ k a w1 = Ok b w'.
Proof.
  unfold bind. destruct (m w) as [a w1| |]; try discriminate.
  intros Hk. by exists a, w1.
Qed.

Lemma write_Ok p w r w' :
  write p w = Ok r w' ->
  trace w' = trace w ++ [EvWrite p r] /\ inbox w' = inbox w
  /\ clock w' = clock w /\ remote w' = remote w.
Proof.
  unfold write. destruct (wres w); intros [= <- <-]; done.
Qed.

Lemma write_total p w : exists r w', write p w = Ok r w'.
Proof. unfold write. destruct (wres w); eauto. Qed.

Lemma read_Ok d w r w' :
  read d w = Ok r w' ->
  trace w' = trace w ++ [EvRead d r] /\ wres w' = wres w
  /\ remote w' = remote w
  /\ (length (inbox w') <= length (inbox w))%nat
  /\ (forall q, r = inl q -> (length (inbox w') < length (inbox w))%nat).
Proof.
  unfold read. destruct (inbox w) as [|i rest] eqn:E; intros [= <- <-]; simpl.
  - repeat split; done.
  - repeat split; try done; intros; lia.
Qed.

(** ** The reliable exchange *)

Lemma awaitReply_shape fuel v end_ now w c w' :
  awaitReply fuel v end_ now w = Ok c w' ->
  exists tr, trace w' = trace w ++ tr /\ AwaitShape v c tr.
Proof.
  revert now w. induction fuel as [|fuel IH]; intros now w; simpl; [done|].
  destruct (now <? end_)%Z.
  - intros Hb. apply bind_Ok in Hb as (r & w1 & Hr & Hk).
    apply read_Ok in Hr as (Ht & _).
    destruct r as [q|err].
    + destruct (v q) eqn:Hv.
      * injection Hk as <- <-. exists [EvRead (end_ - now) (inl q)].
        split; [done|]. by constructor.
      * apply bind_Ok in Hk as (now' & w2 & Hn & Hk).
        injection Hn as <- <-.
        apply IH in Hk as (tr & Ht' & Hs).
        exists (EvRead (end_ - now) (inl q) :: tr). split.
        -- rewrite Ht', Ht, <- app_assoc. done.
        -- by constructor.
    + destruct (decide (err = ErrTimeout)) as [->|Hne].
      * injection Hk as <- <-. eexists. split; [done|]. constructor.
      * apply bind_Ok in Hk as (r & w2 & Hw & Hk).
        injection Hk as <- <-.
        apply write_Ok in Hw as (Hw & _).
        eexists. split.
        -- rewrite Hw, Ht, <- app_assoc. done.
        -- by constructor.
  - intros [= <- <-]. exists []. split; [by rewrite app_nil_r|constructor].
Qed.

Lemma attempts_shape n fuel s p v w r w' :
  attempts n fuel s p v w = Ok r w' ->
  exists tr, trace w' = trace w ++ tr /\ AttemptsShape p v n r tr.
Proof.
  revert w. induction n as [|n IH]; intros w; simpl.
  - intros [= <- <-]. exists []. split; [by rewrite app_nil_r|constructor].
  - intros Hb. apply bind_Ok in Hb as (e & w1 & Hw & Hk).
    apply write_Ok in Hw as (Hw & _).
    destruct e as [e|].
    + injection Hk as <- <-. eexists. split; [done|]. constructor.
    + apply bind_Ok in Hk as (now & w2 & Hn & Hk). injection Hn as <- <-.
      apply bind_Ok in Hk as (c & w3 & Ha & Hk).
      apply awaitReply_shape in Ha as (tr & Ht & Hs).
      destruct c as [|r0].
      * apply IH in Hk as (tr' & Ht' & Hs').
        exists (EvWrite p None :: tr ++ tr'). split.
        -- rewrite Ht', Ht, Hw, <- !app_assoc. done.
        -- by constructor.
      * injection Hk as <- <-.
        exists (EvWrite p None :: tr). split.
        -- rewrite Ht, Hw, <- app_assoc. done.
        -- by constructor.
Qed.

Lemma sent_app tr1 tr2 : sent (tr1 ++ tr2) = sent tr1 ++ sent tr2.
Proof. unfold sent. apply flat_map_app. Qed.

Lemma await_next v tr :
  AwaitShape v Next tr -> sent tr = [] /\ Forall (quiet v) tr.
Proof.
  remember Next as c eqn:Hc. induction 1; try discriminate.
  - split; [done|constructor].
  - split; [done|]. by repeat constructor.
  - destruct (IHAwaitShape Hc) as [Hs Hq]. split; [done|].
    constructor; done.
Qed.

Lemma await_accept v q tr :
  AwaitShape v (Return (inl q)) tr ->
  v q = true /\ sent tr = [] /\ ~ Forall (quiet v) tr.
Proof.
  remember (Return (inl q)) as c eqn:Hc. induction 1; try discriminate.
  - injection Hc as ->. repeat split; try done.
    intros Hq. apply Forall_inv in Hq. simpl in Hq. congruence.
  - destruct (IHAwaitShape Hc) as (Hv & Hs & Hq). repeat split; try done.
    intros Hall. apply Hq. by apply Forall_inv_tail in Hall.
Qed.

Lemma await_fail v e tr :
  AwaitShape v (Return (inr e)) tr ->
  e <> ErrTimeout /\
  exists pre d wr,
    tr = pre ++ [EvRead d (inr e); EvWrite (packetERROR 0 (Error e)) wr]
    /\ sent pre = [] /\ Forall (quiet v) pre.
Proof.
  remember (Return (inr e)) as c eqn:Hc. induction 1; try discriminate.
  - injection Hc as ->. split; [done|]. exists [], d, r. by repeat split.
  - destruct (IHAwaitShape Hc) as (Hne & pre & d' & wr & -> & Hs & Hq).
    split; [done|]. exists (EvRead d (inl p) :: pre), d', wr.
    repeat split; try done. by constructor.
Qed.

(** In the events of one inner loop, a read that failed with an error
    other than the timeout is the last read, and what the loop returns. *)
Lemma await_read_error v c tr d e :
  AwaitShape v c tr -> In (EvRead d (inr e)) tr -> e <> ErrTimeout ->
  c = Return (inr e) /\
  exists pre wr,
    tr = pre ++ [EvRead d (inr e); EvWrite (packetERROR 0 (Error e)) wr]
    /\ sent pre = [] .
Proof.
  induction 1; simpl; intros Hin Hne.
  - done.
  - destruct Hin as [[= <- <-]|[]]. done.
  - destruct Hin as [[=]|[]].
  - destruct Hin as [[= <- <-]|[[=]|[]]]. split; [done|]. by exists [], r.
  - destruct Hin as [[=]|Hin].
    destruct (IHAwaitShape Hin Hne) as (-> & pre & wr & -> & Hs).
    split; [done|]. by exists (EvRead d0 (inl p) :: pre), wr.
Qed.

(** The writes of an exchange: [k] copies of the outbound packet, and after
    them the one error packet that reports a failed read, if any. *)
Lemma attempts_sent p v n r tr :
  AttemptsShape p v n r tr ->
  exists k, (k <= n)%nat /\ (0 < n -> 0 < k)%nat /\
    (sent tr = repeat p k \/
     exists e, e <> ErrTimeout /\ r = inr e /\
       sent tr = repeat p k ++ [packetERROR 0 (Error e)]).
Proof.
  induction 1.
  - exists 0%nat. split; [lia|]. split; [lia|by left].
  - exists 1%nat. split; [lia|]. split; [lia|by left].
  - exists 1%nat. split; [lia|]. split; [lia|].
    destruct r as [q|e].
    + apply await_accept in H as (_ & Hs & _). left. simpl. by rewrite Hs.
    + apply await_fail in H as (Hne & pre & d & wr & -> & Hs & _).
      right. exists e. repeat split; try done.
      simpl. rewrite sent_app, Hs. done.
  - destruct IHAttemptsShape as (k & Hk & Hpos & Hs).
    apply await_next in H as [Hs0 _].
    exists (S k). split; [lia|]. split; [lia|].
    simpl. rewrite sent_app, Hs0. simpl.
    destruct Hs as [->|(e & Hne & -> & ->)]; [by left|].
    right. by exists e.
Qed.

(** An exchange in which nothing but silence and rejected packets came back
    used every round and ends in [ErrTimeout]. *)
Lemma attempts_quiet p v n r tr :
  AttemptsShape p v n r tr -> Forall (quiet v) tr ->
  r = inr ErrTimeout /\ sent tr = repeat p n.
Proof.
  induction 1; intros Hq.
  - done.
  - apply Forall_inv in Hq. done.
  - apply Forall_inv_tail in Hq. destruct r as [q|e].
    + apply await_accept in H as (_ & _ & Hn). done.
    + apply await_fail in H as (Hne & pre & d & wr & -> & _ & _).
      apply Forall_app in Hq as [_ Hq]. apply Forall_inv in Hq. done.
  - apply Forall_inv_tail in Hq. apply Forall_app in Hq as [_ Hq].
    destruct (IHAttemptsShape Hq) as [-> Hs]. split; [done|].
    apply await_next in H as [Hs0 _].
    simpl. rewrite sent_app, Hs0, Hs. done.
Qed.

Lemma attempts_accept p v n q tr :
  AttemptsShape p v n (inl q) tr ->
  v q = true /\ exists k, (1 <= k <= n)%nat /\ sent tr = repeat p k.
Proof.
  remember (inl q) as r eqn:Hr. induction 1; try discriminate.
  - subst r. apply await_accept in H as (Hv & Hs & _). split; [done|].
    exists 1%nat. split; [lia|]. simpl. by rewrite Hs.
  - destruct (IHAttemptsShape Hr) as (Hv & k & Hk & Hs). split; [done|].
    apply await_next in H as [Hs0 _].
    exists (S k). split; [lia|]. simpl. rewrite sent_app, Hs0, Hs. done.
Qed.

Lemma attempts_read_error p v n r tr d e :
  AttemptsShape p v n r tr -> In (EvRead d (inr e)) tr -> e <> ErrTimeout ->
  r = inr e /\
  exists pre wr k,
    tr = pre ++ [EvRead d (inr e); EvWrite (packetERROR 0 (Error e)) wr]
    /\ sent pre = repeat p k /\ (1 <= k <= n)%nat.
Proof.
  induction 1; simpl; intros Hin Hne.
  - done.
  - destruct Hin as [[=]|[]].
  - destruct Hin as [[=]|Hin].
    destruct (await_read_error _ _ _ _ _ H Hin Hne)
      as ([= ->] & pre & wr & -> & Hs).
    split; [done|]. exists (EvWrite p None :: pre), wr, 1%nat.
    repeat split; [|lia|lia]. simpl. by rewrite Hs.
  - destruct Hin as [[=]|Hin]. apply in_app_or in Hin as [Hin|Hin].
    + by destruct (await_read_error _ _ _ _ _ H Hin Hne) as ([=] & _).
    + destruct (IHAttemptsShape Hin Hne) as (-> & pre & wr & k & -> & Hs & Hk).
      split; [done|].
      exists (EvWrite p None :: tr ++ pre), wr, (S k).
      apply await_next in H as [Hs0 _].
      repeat split; [| |lia|lia].
      * simpl. by rewrite <- app_assoc.
      * simpl. rewrite sent_app, Hs0, Hs. done.
Qed.

(** Given fuel beyond the replies that are waiting, the inner loop ends. *)
Lemma awaitReply_total fuel v end_ now w :
  (length (inbox w) < fuel)%nat ->
  exists c w', awaitReply fuel v end_ now w = Ok c w'
    /\ (length (inbox w') <= length (inbox w))%nat.
Proof.
  revert now w. induction fuel as [|fuel IH]; intros now w Hf; [lia|].
  simpl. destruct (now <? end_)%Z; [|by exists Next, w].
  unfold bind at 1. destruct (read (end_ - now) w) as [r w1| |] eqn:Hr;
    [|unfold read in Hr; destruct (inbox w); discriminate..].
  apply read_Ok in Hr as (_ & _ & _ & Hle & Hlt).
  destruct r as [q|err].
  - destruct (v q); [by exists (Return (inl q)), w1|].
    unfold bind, Now. specialize (Hlt q eq_refl).
    destruct (IH (clock w1) w1) as (c & w' & -> & Hle'); [lia|].
    exists c, w'. split; [done|lia].
  - destruct (decide (err = ErrTimeout)); [by exists Next, w1|].
    unfold bind, writeError.
    destruct (write_total (packetERROR 0 (Error err)) w1) as (r & w2 & Hw).
    rewrite Hw. exists (Return (inr err)), w2. split; [done|].
    apply write_Ok in Hw as (_ & -> & _). done.
Qed.

Lemma attempts_total n fuel s p v w :
  (length (inbox w) < fuel)%nat ->
  exists r w', attempts n fuel s p v w = Ok r w'
    /\ (length (inbox w') <= length (inbox w))%nat.
Proof.
  revert w. induction n as [|n IH]; intros w Hf; simpl.
  - by exists (inr ErrTimeout), w.
  - unfold bind at 1. destruct (write_total p w) as (e & w1 & Hw). rewrite Hw.
    apply write_Ok in Hw as (_ & Hin & _). rewrite <- Hin in *.
    destruct e as [e|]; [exists (inr e), w1; split; [done|lia]|].
    unfold bind at 1, Now. unfold bind at 1.
    destruct (awaitReply_total fuel v (clock w1 + timeout s * Second) (clock w1) w1)
      as (c & w2 & -> & Hle); [lia|].
    destruct c as [|r].
    + destruct (IH w2) as (r & w' & -> & Hle'); [lia|].
      exists r, w'. split; [done|lia].
    + exists r, w2. split; [done|lia].
Qed.

Lemma write_eq p w :
  write p w =
  Ok (hd None (wres w))
     (mkWorld (remote w) (inbox w) (tl (wres w)) (clock w)
        (trace w ++ [EvWrite p (hd None (wres w))])).
Proof. unfold write. by destruct (wres w). Qed.

Lemma await_transport v c tr : AwaitShape v c tr -> Forall onTransport tr.
Proof. induction 1; repeat constructor; done. Qed.

Lemma attempts_transport p v n r tr :
  AttemptsShape p v n r tr -> Forall onTransport tr.
Proof.
  induction 1; repeat constructor; try done.
  - by eapply await_transport.
  - apply Forall_app. split; [by eapply await_transport|done].
Qed.

(** ** Negotiation *)

Lemma clamp_spec i lo hi :
  lo <= hi ->
  (i < lo -> clamp i lo hi = lo) /\
  (hi < i -> clamp i lo hi = hi) /\
  (lo <= i <= hi -> clamp i lo hi = i).
Proof. unfold clamp. intros. repeat split; intros; repeat case_match; lia. Qed.

Lemma clamp_range i lo hi : lo <= hi -> lo <= clamp i lo hi <= hi.
Proof. unfold clamp. intros. repeat case_match; lia. Qed.

(** The block size of a session stays in the range of RFC 2348 through any
    negotiation. *)
Lemma negotiate_blksize_range s o :
  8 <= blksize s <= 65464 -> 8 <= blksize (negotiate s o).2 <= 65464.
Proof.
  intros Hs. unfold negotiate.
  pose proof (clamp_range) as Hc.
  repeat case_match; simplify_eq; simpl; try done; by apply Hc.
Qed.

(** C2.  A [blksize] value that parses is stored as the session's block
    size clamped to [8, 65464], and a negotiation that returns its options
    echoes the decimal text of that clamped value; a [timeout] value that
    parses is, in a negotiation that returns its options, stored clamped to
    [1, 255] and echoed so.  Clamping sends a value below the range to its
    lower bound, one above to its upper bound, and leaves the others alone.
    A negotiation in which every recognised option present parses returns
    its options. *)
Theorem negotiate_clamps (s : session) (o : gmap string string) :
  (forall v i,
      o !! "blksize" = Some v -> strconv.Atoi v = inl i ->
      blksize (negotiate s o).2 = clamp i 8 65464 /\
      forall accepted : gmap string string,
        (negotiate s o).1 = inl accepted ->
        accepted !! "blksize" = Some (strconv.Itoa (clamp i 8 65464))) /\
  (forall v i,
      o !! "timeout" = Some v -> strconv.Atoi v = inl i ->
      forall accepted : gmap string string,
        (negotiate s o).1 = inl accepted ->
        timeout (negotiate s o).2 = clamp i 1 255 /\
        accepted !! "timeout" = Some (strconv.Itoa (clamp i 1 255))) /\
  (forall i lo hi, lo <= hi ->
      (i < lo -> clamp i lo hi = lo) /\
      (hi < i -> clamp i lo hi = hi) /\
      (lo <= i <= hi -> clamp i lo hi = i)) /\
  ((forall v, o !! "blksize" = Some v -> exists i, strconv.Atoi v = inl i) ->
   (forall v, o !! "timeout" = Some v -> exists i, strconv.Atoi v = inl i) ->
   exists accepted, (negotiate s o).1 = inl accepted).
Proof.
  split; [|split; [|split]].
  - intros v i Hb Hv. unfold negotiate. rewrite Hb, Hv. simpl.
    destruct (o !! "timeout") as [t|]; [destruct (strconv.Atoi t)|]; simpl.
    + split; [done|]. intros acc [= <-].
      rewrite lookup_insert_ne by done. by rewrite lookup_insert_eq.
    + split; [done|]. intros acc [=].
    + split; [done|]. intros acc [= <-]. by rewrite lookup_insert_eq.
  - intros v i Ht Hv acc. unfold negotiate. rewrite Ht, Hv.
    destruct (o !! "blksize") as [b|]; [destruct (strconv.Atoi b)|]; simpl.
    + intros [= <-]. split; [done|]. by rewrite lookup_insert_eq.
    + intros [=].
    + intros [= <-]. split; [done|]. by rewrite lookup_insert_eq.
  - apply clamp_spec.
  - intros Hb Ht. unfold negotiate.
    destruct (o !! "blksize") as [b|].
    + destruct (Hb b eq_refl) as [i ->].
      destruct (o !! "timeout") as [t|]; [|by eexists].
      destruct (Ht t eq_refl) as [j ->]. by eexists.
    + destruct (o !! "timeout") as [t|]; [|by eexists].
      destruct (Ht t eq_refl) as [j ->]. by eexists.
Qed.

(** C7.  [negotiate] looks at [blksize] first and undoes nothing: when the
    [blksize] value parses and the [timeout] value does not, it returns the
    error of the [timeout] value, the session's block size is the clamped
    new value and its timeout is what it was. *)
Theorem negotiate_no_rollback (s : session) (o : gmap string string)
  (v t : string) (i : Z) (e : error) :
  o !! "blksize" = Some v -> strconv.Atoi v = inl i ->
  o !! "timeout" = Some t -> strconv.Atoi t = inr e ->
  negotiate s o = (inr e, mkSession (clamp i 8 65464) (timeout s)).
Proof.
  intros Hb Hv Ht He. unfold negotiate. by rewrite Hb, Hv, Ht, He.
Qed.

(** A recognised option whose value does not parse makes [negotiate] fail,
    with the error [strconv.Atoi] gave for one of them. *)
Lemma negotiate_fails (s : session) (o : gmap string string) :
  (exists v e, o !! "blksize" = Some v /\ strconv.Atoi v = inr e) \/
  (exists v e, o !! "timeout" = Some v /\ strconv.Atoi v = inr e) ->
  exists err, (negotiate s o).1 = inr err /\
    exists k v, o !! k = Some v /\ strconv.Atoi v = inr err.
Proof.
  intros [(v & e & Hb & He)|(v & e & Ht & He)]; unfold negotiate.
  - rewrite Hb, He. simpl. exists e. split; [done|]. by exists "blksize", v.
  - rewrite Ht, He.
    destruct (o !! "blksize") as [b|] eqn:Hb;
      [destruct (strconv.Atoi b) as [i|e'] eqn:He'|]; simpl.
    + exists e. split; [done|]. by exists "timeout", v.
    + exists e'. split; [done|]. by exists "blksize", b.
    + exists e. split; [done|]. by exists "timeout", v.
Qed.

(** ** The error paths of a session *)

(** C4.  When [ReadFile] fails, [serveRRQ] writes one ERROR packet and
    returns: code 1 for [os.ErrNotExist], 2 for [os.ErrPermission], 0 for
    any other error, the message the error's text.  Nothing else is written
    or read, no DATA packet in particular. *)
Theorem rrq_backend_error {R : Type} `{ReadCloser R} (h : Handler R)
  (fuel : nat) (s : session) (filename : string)
  (options : gmap string string) (w : World) (err : error) :
  ReadFile h zeroUDPAddr filename = inr err ->
  exists code wr w',
    serveRRQ h fuel s filename options w = Ok tt w' /\
    trace w' = trace w ++
      [EvReadFile zeroUDPAddr filename;
       EvWrite (packetERROR code (Error err)) wr] /\
    inbox w' = inbox w /\
    (err = os_ErrNotExist -> code = 1) /\
    (err = os_ErrPermission -> code = 2) /\
    (err <> os_ErrNotExist -> err <> os_ErrPermission -> code = 0).
Proof.
  intros Hr. unfold serveRRQ. rewrite Hr. unfold bind at 1, record.
  unfold bind, writeError.
  destruct (decide (err = os_ErrNotExist)) as [->|Hn];
    [|destruct (decide (err = os_ErrPermission)) as [->|Hp]];
    rewrite write_eq; simpl; eexists _, _, _;
    (split; [reflexivity|]); rewrite <- app_assoc; simpl;
    repeat split; done.
Qed.

(** C5.  A WRQ, whatever its file name and options, is answered by one
    ERROR packet with code 0 and the message "not supported"; the session
    then returns and has written nothing else. *)
Theorem wrq_not_supported {R : Type} `{ReadCloser R} (h : Handler R)
  (fuel : nat) (w : World) (dt : Z) (filename : string)
  (options : gmap string string) (rest : list Incoming) :
  inbox w = mkIncoming dt (inl (packetWRQ filename options)) :: rest ->
  exists wr w',
    serve h fuel w = Ok tt w' /\
    trace w' = trace w ++
      [EvRead 0 (inl (packetWRQ filename options));
       EvWrite (packetERROR 0 "not supported") wr] /\
    sent (drop (length (trace w)) (trace w'))
      = [packetERROR 0 "not supported"] /\
    inbox w' = rest.
Proof.
  intros Hin. unfold serve, bind at 1, read. rewrite Hin. simpl.
  unfold serveWRQ, bind, writeError. rewrite write_eq. simpl.
  eexists _, _. split; [reflexivity|]. simpl. rewrite <- app_assoc. simpl.
  split; [done|]. split; [|done].
  rewrite drop_app_length. done.
Qed.

(** C6.  When the backend has the file and the request carries a [blksize]
    or [timeout] value that does not parse, [negotiate] fails and
    [serveRRQ] writes one ERROR packet with code 8 and the text of that
    error, closes the file and returns: no OACK and no DATA packet is
    written, and nothing is read from the peer. *)
Theorem rrq_negotiation_error {R : Type} `{ReadCloser R} (h : Handler R)
  (fuel : nat) (s : session) (filename : string)
  (options : gmap string string) (w : World) (rc : R) :
  ReadFile h zeroUDPAddr filename = inl rc ->
  (exists v e, options !! "blksize" = Some v /\ strconv.Atoi v = inr e) \/
  (exists v e, options !! "timeout" = Some v /\ strconv.Atoi v = inr e) ->
  exists err wr w',
    (negotiate s options).1 = inr err /\
    serveRRQ h fuel s filename options w = Ok tt w' /\
    trace w' = trace w ++
      [EvReadFile zeroUDPAddr filename;
       EvWrite (packetERROR 8 (Error err)) wr;
       EvClose] /\
    sent (drop (length (trace w)) (trace w'))
      = [packetERROR 8 (Error err)] /\
    inbox w' = inbox w.
Proof.
  intros Hr Hbad.
  assert (0 < size options)%nat as Hsz.
  { destruct Hbad as [(v & e & Hl & _)|(v & e & Hl & _)];
      (destruct (decide (size options = 0%nat)) as [Hz|]; [|lia]);
      apply map_size_empty_inv in Hz; subst; by rewrite lookup_empty in Hl. }
  destruct (negotiate_fails s options Hbad) as (err & Hn & _).
  exists err. unfold serveRRQ. rewrite Hr. unfold bind at 1, record.
  unfold deferred. destruct (decide (0 < size options)%nat); [|lia].
  destruct (negotiate s options) as [res s1]. simpl in Hn. subst res.
  unfold bind, writeError, record. rewrite write_eq. simpl.
  eexists _, _. split; [done|]. split; [reflexivity|]. simpl.
  rewrite <- !app_assoc. simpl. split; [done|]. split; [|done].
  rewrite drop_app_length. done.
Qed.

(** ** The reliable exchange, as the specification states it *)

(** C3.  An exchange that has the fuel to finish returns, and what it wrote
    is the outbound packet [k] times over, [1 <= k <= 3], followed at most
    by the one ERROR packet that reports a failed read.  When every round
    passed in silence or with replies the validator turned down, it returns
    [ErrTimeout] and has written the outbound packet three times and
    nothing else. *)
Theorem writeAndWaitForPacket_three_sends (fuel : nat) (s : session)
  (p : packet) (v : packetValidator) (w : World) :
  (length (inbox w) < fuel)%nat ->
  exists r w' tr,
    writeAndWaitForPacket fuel s p v w = Ok r w' /\
    trace w' = trace w ++ tr /\
    (exists k, (1 <= k <= 3)%nat /\
       (sent tr = repeat p k \/
        exists e, e <> ErrTimeout /\ r = inr e /\
          sent tr = repeat p k ++ [packetERROR 0 (Error e)])) /\
    (Forall (quiet v) tr -> r = inr ErrTimeout /\ sent tr = [p; p; p]).
Proof.
  intros Hf. unfold writeAndWaitForPacket.
  destruct (attempts_total 3 fuel s p v w Hf) as (r & w' & Hrun & _).
  destruct (attempts_shape _ _ _ _ _ _ _ _ Hrun) as (tr & Ht & Hs).
  exists r, w', tr. split; [done|]. split; [done|]. split.
  - destruct (attempts_sent _ _ _ _ _ Hs) as (k & Hk & Hpos & Hsent).
    exists k. split; [lia|done].
  - intros Hq. by apply (attempts_quiet _ _ _ _ _ Hs).
Qed.

(** C8.  In an exchange, a read that fails with an error other than
    [ErrTimeout] is followed by one write, of the ERROR packet with code 0
    and the error's text, and by nothing more: the exchange returns that
    error, and the outbound packet, written [k <= 3] times before, is not
    written again. *)
Theorem writeAndWaitForPacket_read_error (fuel : nat) (s : session)
  (p : packet) (v : packetValidator) (w : World) :
  (length (inbox w) < fuel)%nat ->
  exists r w' tr,
    writeAndWaitForPacket fuel s p v w = Ok r w' /\
    trace w' = trace w ++ tr /\
    forall d e, In (EvRead d (inr e)) tr -> e <> ErrTimeout ->
      r = inr e /\
      exists pre wr k,
        tr = pre ++ [EvRead d (inr e); EvWrite (packetERROR 0 (Error e)) wr]
        /\ sent pre = repeat p k /\ (1 <= k <= 3)%nat.
Proof.
  intros Hf. unfold writeAndWaitForPacket.
  destruct (attempts_total 3 fuel s p v w Hf) as (r & w' & Hrun & _).
  destruct (attempts_shape _ _ _ _ _ _ _ _ Hrun) as (tr & Ht & Hs).
  exists r, w', tr. split; [done|]. split; [done|].
  intros d e Hin Hne. by apply (attempts_read_error _ _ _ _ _ _ _ Hs).
Qed.

Lemma ackValidator_true N p : ackValidator N p = true <-> p = packetACK N.
Proof.
  destruct p; simpl; try (split; [discriminate|intros [=]]).
  rewrite Z.eqb_eq. split; [by intros ->|by intros [=]].
Qed.

(** C9.  The validator for block [N] accepts exactly the packet ACK [N].
    While the inner loop waits for it before the deadline, an ACK for
    another block is read and dropped: nothing is written, and the loop
    goes on waiting for ACK [N] until the same deadline.  An exchange
    that returns a packet returns ACK [N], and all it wrote is its own
    outbound packet, at most three times, followed at most by the ERROR
    packet of a failed read. *)
Theorem ackValidator_exact (N : Z) :
  (forall p, ackValidator N p = true <-> p = packetACK N) /\
  (forall fuel end_ now w dt m rest,
      m <> N -> now < end_ ->
      inbox w = mkIncoming dt (inl (packetACK m)) :: rest ->
      awaitReply (S fuel) (ackValidator N) end_ now w
      = awaitReply fuel (ackValidator N) end_ (clock w + dt)
          (mkWorld (remote w) rest (wres w) (clock w + dt)
             (trace w ++ [EvRead (end_ - now) (inl (packetACK m))]))) /\
  (forall fuel s p w r w',
      writeAndWaitForPacket fuel s p (ackValidator N) w = Ok r w' ->
      (forall q, r = inl q -> q = packetACK N) /\
      exists tr k,
        trace w' = trace w ++ tr /\ (k <= 3)%nat /\
        (sent tr = repeat p k \/
         exists e, r = inr e /\
           sent tr = repeat p k ++ [packetERROR 0 (Error e)])).
Proof.
  split; [apply ackValidator_true|]. split.
  - intros fuel end_ now w dt m rest Hm Hlt Hin. simpl.
    apply Z.ltb_lt in Hlt. rewrite Hlt.
    unfold bind at 1, read. rewrite Hin. simpl.
    destruct (m =? N)%Z eqn:E; [apply Z.eqb_eq in E; done|].
    reflexivity.
  - intros fuel s p w r w' Hrun. unfold writeAndWaitForPacket in Hrun.
    destruct (attempts_shape _ _ _ _ _ _ _ _ Hrun) as (tr & Ht & Hs).
    split.
    + intros q ->. apply attempts_accept in Hs as [Hv _].
      by apply ackValidator_true.
    + destruct (attempts_sent _ _ _ _ _ Hs) as (k & Hk & _ & Hsent).
      exists tr, k. split; [done|]. split; [done|].
      destruct Hsent as [?|(e & _ & ? & ?)]; [by left|right; by exists e].
Qed.

(** ** The block loop *)

Lemma deferred_Ok {A} (d : M unit) (body : M A) w a w' :
  deferred d body w = Ok a w' ->
  exists w1, body w = Ok a w1 /\ d w1 = Ok tt w'.
Proof.
  unfold deferred. destruct (body w) as [a0 w1|w1|]; [| |done].
  - intros Hd. apply bind_Ok in Hd as ([] & w2 & Hd & [= <- <-]). by exists w1.
  - unfold bind, panic. by destruct (d w1).
Qed.

Lemma sendBlocks_transport {R : Type} `{ReadCloser R} n fuel s (rc : R)
  bn w c w' :
  sendBlocks n fuel s rc bn w = Ok c w' ->
  exists tr, trace w' = trace w ++ tr /\ Forall onTransport tr.
Proof.
  revert rc bn w. induction n as [|n IH]; intros rc bn w; simpl; [done|].
  destruct (Read rc (Z.to_nat (blksize s))) as [[data err] rc'].
  destruct (decide (length data = 0%nat)) as [Hz|Hnz].
  - destruct err as [e|]; [|done]. destruct (decide (e = io_EOF)) as [He|He].
    + intros [= <- <-]. exists []. by rewrite app_nil_r.
    + intros Hb. apply bind_Ok in Hb as (r & w1 & Hw & [= <- <-]).
      apply write_Ok in Hw as (Hw & _). eexists. split; [done|].
      by repeat constructor.
  - intros Hb. apply bind_Ok in Hb as (r & w1 & Hx & Hk).
    apply attempts_shape in Hx as (tr1 & Ht1 & Hs1).
    apply attempts_transport in Hs1.
    destruct r as [q|e].
    + apply IH in Hk as (tr2 & Ht2 & Hs2). exists (tr1 ++ tr2). split.
      * by rewrite Ht2, Ht1, <- app_assoc.
      * by apply Forall_app.
    + injection Hk as <- <-. by exists tr1.
Qed.

Lemma nblocks_0 B : (0 < B)%nat -> nblocks B 0 = 0%nat.
Proof. intros. unfold nblocks. apply Nat.div_small. lia. Qed.

Lemma nblocks_pos B L :
  (0 < B)%nat -> (0 < L)%nat -> nblocks B L = S ((L - 1) / B).
Proof.
  intros HB HL. unfold nblocks.
  replace (L + B - 1)%nat with ((L - 1) + 1 * B)%nat by lia.
  rewrite Nat.div_add by lia. lia.
Qed.

Lemma nblocks_step B L :
  (0 < B)%nat -> (0 < L)%nat -> nblocks B L = S (nblocks B (L - B)).
Proof.
  intros HB HL. rewrite nblocks_pos by done. f_equal.
  destruct (decide (L <= B)%nat) as [Hle|Hgt].
  - replace (L - B)%nat with 0%nat by lia. rewrite nblocks_0 by done.
    apply Nat.div_small. lia.
  - rewrite nblocks_pos by lia.
    replace (L - 1)%nat with ((L - B - 1) + 1 * B)%nat by lia.
    rewrite Nat.div_add by lia. lia.
Qed.

(** The count of blocks in the terms of the specification: the quotient,
    and one more when the division leaves a remainder. *)
Lemma nblocks_floor B L :
  (0 < B)%nat ->
  nblocks B L = (L / B + (if decide (L mod B = 0) then 0 else 1))%nat.
Proof.
  intros HB. pose proof (Nat.div_mod_eq L B) as HL.
  pose proof (Nat.mod_upper_bound L B ltac:(lia)) as Hr.
  unfold nblocks. set (q := (L / B)%nat) in *. set (r := (L mod B)%nat) in *.
  destruct (decide (r = 0%nat)) as [Hz|Hnz].
  - symmetry. apply (Nat.div_unique _ _ _ (B - 1)); nia.
  - symmetry. apply (Nat.div_unique _ _ _ (r - 1)); nia.
Qed.

Lemma dataBlocks_nil B bn : (0 < B)%nat -> dataBlocks B bn [] = [].
Proof. intros. unfold dataBlocks. simpl. by rewrite nblocks_0. Qed.

Lemma dataBlocks_cons B bn (c : list Byte.byte) :
  (0 < B)%nat -> 0 <= bn < 65536 -> c <> [] ->
  dataBlocks B bn c =
  packetDATA bn (take B c) :: dataBlocks B ((bn + 1) mod 65536) (drop B c).
Proof.
  intros HB Hbn Hc. unfold dataBlocks.
  rewrite (nblocks_step B (length c)); [|done|destruct c; simpl; [done|lia]].
  rewrite length_drop. simpl. f_equal.
  - rewrite Z.add_0_r, Z.mod_small by done. done.
  - rewrite <- seq_shift, map_map. apply map_ext. intros k.
    f_equal.
    + rewrite Zplus_mod_idemp_l. f_equal. lia.
    + unfold block. rewrite drop_drop. done.
Qed.

Lemma length_dataBlocks B bn c :
  length (dataBlocks B bn c) = nblocks B (length c).
Proof. unfold dataBlocks. by rewrite length_map, length_seq. Qed.

Lemma repeated_cons p ps r reps :
  repeated (p :: ps) (r :: reps) = repeat p r ++ repeated ps reps.
Proof. reflexivity. Qed.

(** What a completed run of the block loop over a file has written: the
    blocks of the file in order, each one to three times. *)
Lemma sendBlocks_file_sent n fuel s (c : list Byte.byte) bn w w' :
  0 < blksize s -> 0 <= bn < 65536 ->
  sendBlocks n fuel s c bn w = Ok Next w' ->
  exists tr reps,
    trace w' = trace w ++ tr /\
    length reps = nblocks (Z.to_nat (blksize s)) (length c) /\
    Forall (fun r => (1 <= r <= 3)%nat) reps /\
    sent tr = repeated (dataBlocks (Z.to_nat (blksize s)) bn c) reps.
Proof.
  intros HB. assert (0 < Z.to_nat (blksize s))%nat as HB' by lia.
  revert c bn w. induction n as [|n IH]; intros c bn w Hbn; [done|].
  destruct c as [|b c0].
  - cbn. intros [= <-]. exists [], []. rewrite app_nil_r.
    rewrite dataBlocks_nil, nblocks_0 by done. by repeat split.
  - rewrite (dataBlocks_cons _ _ (b :: c0)) by done.
    rewrite (nblocks_step _ (length (b :: c0))) by (simpl; lia).
    rewrite <- length_drop.
    cbn [sendBlocks Read fileStream fileRead].
    destruct (decide (length (take (Z.to_nat (blksize s)) (b :: c0)) = 0%nat))
      as [Hz|_].
    { rewrite length_take in Hz. simpl in Hz. lia. }
    intros Hb. apply bind_Ok in Hb as (r & w1 & Hx & Hk).
    apply attempts_shape in Hx as (tr1 & Ht1 & Hs1).
    destruct r as [q|e]; [|done].
    apply attempts_accept in Hs1 as (_ & k & Hk3 & Hsent).
    apply IH in Hk as (tr2 & reps & Ht2 & Hlen & Hall & Hs2);
      [|by apply Z.mod_pos_bound].
    exists (tr1 ++ tr2), (k :: reps). repeat split.
    + by rewrite Ht2, Ht1, <- app_assoc.
    + simpl. by rewrite Hlen.
    + by constructor.
    + by rewrite sent_app, Hsent, Hs2, repeated_cons.
Qed.

(** An exchange whose reply is waiting and is accepted: one write, one
    read. *)
Lemma exchange_prompt fuel s p v w dt q rest :
  (0 < fuel)%nat -> 0 < timeout s ->
  hd None (wres w) = None ->
  inbox w = mkIncoming dt (inl q) :: rest -> v q = true ->
  writeAndWaitForPacket fuel s p v w =
  Ok (inl q)
     (mkWorld (remote w) rest (tl (wres w)) (clock w + dt)
        (trace w ++ [EvWrite p None; EvRead (timeout s * Second) (inl q)])).
Proof.
  intros Hf Ht Hw Hin Hv. unfold writeAndWaitForPacket. simpl.
  unfold bind at 1. rewrite write_eq, Hw. unfold bind at 1, Now. simpl.
  destruct fuel as [|fuel]; [lia|]. unfold bind at 1. simpl.
  assert ((clock w <? clock w + timeout s * Second)%Z = true) as ->.
  { apply Z.ltb_lt. unfold Second. lia. }
  unfold bind at 1, read. simpl. rewrite Hin. cbn [reply elapsed].
  rewrite Hv. unfold ret. rewrite <- app_assoc. simpl.
  replace (clock w + timeout s * Second - clock w) with (timeout s * Second)
    by lia.
  done.
Qed.

(** With a peer that acknowledges every block as it comes, the block loop
    over a file runs to its end and has written every block once. *)
Lemma sendBlocks_file_prompt n fuel s (c : list Byte.byte) bn w
  (acks rest : list Incoming) :
  0 < blksize s -> 0 < timeout s -> 0 <= bn < 65536 -> (0 < fuel)%nat ->
  (nblocks (Z.to_nat (blksize s)) (length c) < n)%nat ->
  Forall (fun r => r = None) (wres w) ->
  inbox w = acks ++ rest ->
  map reply acks
    = map (fun p => inl (ackOf p)) (dataBlocks (Z.to_nat (blksize s)) bn c) ->
  exists w' tr,
    sendBlocks n fuel s c bn w = Ok Next w' /\
    inbox w' = rest /\
    trace w' = trace w ++ tr /\
    sent tr = dataBlocks (Z.to_nat (blksize s)) bn c.
Proof.
  intros HB HT. assert (0 < Z.to_nat (blksize s))%nat as HB' by lia.
  revert c bn w acks.
  induction n as [|n IH]; intros c bn w acks Hbn Hf Hn Hw Hin Hacks; [lia|].
  destruct c as [|b c0].
  - rewrite dataBlocks_nil in * by done.
    destruct acks; [|done]. cbn. exists w, []. by rewrite app_nil_r.
  - rewrite (dataBlocks_cons _ _ (b :: c0)) in * by done.
    rewrite (nblocks_step _ (length (b :: c0))) in Hn by (simpl; lia).
    rewrite <- length_drop in Hn.
    destruct acks as [|[dt a] acks]; [done|].
    simpl in Hacks. injection Hacks as -> Hacks.
    cbn [sendBlocks Read fileStream fileRead].
    destruct (decide (length (take (Z.to_nat (blksize s)) (b :: c0)) = 0%nat))
      as [Hz|_].
    { rewrite length_take in Hz. simpl in Hz. lia. }
    unfold bind at 1.
    rewrite (exchange_prompt fuel s _ _ w dt (packetACK bn) (acks ++ rest));
      [|done|done|by destruct Hw|done|by apply ackValidator_true].
    destruct (IH (drop (Z.to_nat (blksize s)) (b :: c0)) ((bn + 1) mod 65536)
                (mkWorld (remote w) (acks ++ rest) (tl (wres w)) (clock w + dt)
                   (trace w ++
                      [EvWrite (packetDATA bn (take (Z.to_nat (blksize s)) (b :: c0))) None;
                       EvRead (timeout s * Second) (inl (packetACK bn))]))
                acks)
      as (w' & tr & Hrun & Hin' & Ht & Hs); try done.
    + by apply Z.mod_pos_bound.
    + lia.
    + simpl. destruct Hw; [constructor|done].
    + exists w', (EvWrite (packetDATA bn (take (Z.to_nat (blksize s)) (b :: c0))) None
                  :: EvRead (timeout s * Second) (inl (packetACK bn)) :: tr).
      split; [done|]. split; [done|]. split.
      * rewrite Ht. simpl. by rewrite <- app_assoc.
      * simpl. by rewrite Hs.
Qed.

(** A request without options for a file the backend has, from a peer that
    acknowledges every block as it comes: the session writes the blocks of
    the file, once each, and nothing else. *)
Lemma serveRRQ_file_prompt (h : Handler (list Byte.byte)) fuel s filename
  (c : list Byte.byte) w (acks rest : list Incoming) :
  0 < blksize s -> 0 < timeout s ->
  ReadFile h zeroUDPAddr filename = inl c ->
  (nblocks (Z.to_nat (blksize s)) (length c) < fuel)%nat ->
  Forall (fun r => r = None) (wres w) ->
  inbox w = acks ++ rest ->
  map reply acks
    = map (fun p => inl (ackOf p)) (dataBlocks (Z.to_nat (blksize s)) 1 c) ->
  exists w',
    serveRRQ h fuel s filename ∅ w = Ok tt w' /\
    inbox w' = rest /\
    sent (drop (length (trace w)) (trace w'))
    = dataBlocks (Z.to_nat (blksize s)) 1 c.
Proof.
  intros HB HT Hr Hf Hw Hin Hacks. unfold serveRRQ. rewrite Hr.
  unfold bind at 1, record. unfold deferred.
  destruct (decide (0 < size (∅ : gmap string string))%nat) as [Hsz|_];
    [rewrite map_size_empty in Hsz; lia|].
  unfold bind at 1.
  destruct (sendBlocks_file_prompt fuel fuel s c 1
              (mkWorld (remote w) (inbox w) (wres w) (clock w)
                 (trace w ++ [EvReadFile zeroUDPAddr filename]))
              acks rest) as (w1 & tr & -> & Hin1 & Ht1 & Hs1);
    try done; try lia.
  unfold ret, bind. simpl. eexists. split; [reflexivity|]. simpl.
  split; [done|]. rewrite Ht1. simpl. rewrite <- !app_assoc.
  rewrite drop_app_length. simpl. rewrite sent_app, Hs1. simpl.
  by rewrite app_nil_r.
Qed.

Lemma block_nonempty B (c : list Byte.byte) k :
  (0 < B)%nat -> (k < nblocks B (length c))%nat ->
  block B c k <> [] /\ (length (block B c k) <= B)%nat.
Proof.
  intros HB Hk. unfold block.
  assert (k * B < length c)%nat as Hlt.
  { destruct (decide (length c = 0%nat)) as [Hz|Hnz].
    - rewrite Hz, nblocks_0 in Hk by done. lia.
    - rewrite nblocks_pos in Hk by lia.
      pose proof (Nat.Div0.mul_div_le (length c - 1) B). nia. }
  split.
  - intros Hnil. apply (f_equal length) in Hnil.
    rewrite length_take, length_drop in Hnil. simpl in Hnil. lia.
  - rewrite length_take. lia.
Qed.

(** C1, as the code has it.  Let a file of [L] bytes be served in blocks of
    [B] bytes.  Its DATA packets are the [N] non-empty blocks of the file,
    [N] being [L / B] rounded up: [L / B + 1] blocks when [B] does not
    divide [L], [L / B] when it does.  They are numbered from 1 upwards
    modulo 65536, hence 1 to [N] when [N] is below 65536, and none of them
    is empty.  A block loop that runs to the end of the file has written
    exactly these packets in this order, each of them one to three times,
    and nothing else; with a peer that acknowledges every block as it
    comes the loop does run to the end, and writes each block once, and so
    does the whole of [serveRRQ] for a request without options. *)
Theorem rrq_blocks_sent (s : session) (c : list Byte.byte) :
  0 < blksize s -> 0 < timeout s ->
  let B := Z.to_nat (blksize s) in
  let N := nblocks B (length c) in
  N = (length c / B + (if decide (length c mod B = 0) then 0 else 1))%nat /\
  length (dataBlocks B 1 c) = N /\
  Forall (fun p => exists bn d,
            p = packetDATA bn d /\ d <> [] /\ (length d <= B)%nat)
         (dataBlocks B 1 c) /\
  (Z.of_nat N < 65536 ->
   dataBlocks B 1 c
   = map (fun k => packetDATA (Z.of_nat (S k)) (block B c k)) (seq 0 N)) /\
  (forall n fuel w w',
      sendBlocks n fuel s c 1 w = Ok Next w' ->
      exists tr reps,
        trace w' = trace w ++ tr /\
        length reps = N /\
        Forall (fun r => (1 <= r <= 3)%nat) reps /\
        sent tr = repeated (dataBlocks B 1 c) reps) /\
  (forall n fuel w (acks rest : list Incoming),
      (0 < fuel)%nat -> (N < n)%nat ->
      Forall (fun r => r = None) (wres w) ->
      inbox w = acks ++ rest ->
      map reply acks = map (fun p => inl (ackOf p)) (dataBlocks B 1 c) ->
      exists w' tr,
        sendBlocks n fuel s c 1 w = Ok Next w' /\
        inbox w' = rest /\
        trace w' = trace w ++ tr /\
        sent tr = dataBlocks B 1 c) /\
  (forall (h : Handler (list Byte.byte)) fuel filename w
          (acks rest : list Incoming),
      ReadFile h zeroUDPAddr filename = inl c ->
      (N < fuel)%nat ->
      Forall (fun r => r = None) (wres w) ->
      inbox w = acks ++ rest ->
      map reply acks = map (fun p => inl (ackOf p)) (dataBlocks B 1 c) ->
      exists w',
        serveRRQ h fuel s filename ∅ w = Ok tt w' /\
        inbox w' = rest /\
        sent (drop (length (trace w)) (trace w')) = dataBlocks B 1 c).
Proof.
  intros HB HT B N. assert (0 < B)%nat as HB' by (unfold B; lia).
  split; [by apply nblocks_floor|]. split; [apply length_dataBlocks|].
  split; [|split; [|split; [|split]]].
  - apply List.Forall_forall. intros p Hp. unfold dataBlocks in Hp.
    apply in_map_iff in Hp as (k & <- & Hk). apply in_seq in Hk.
    destruct (block_nonempty B c k) as [Hne Hle]; [done|lia|].
    eexists _, _. by repeat split.
  - intros HN. unfold dataBlocks. apply map_ext_in. intros k Hk.
    apply in_seq in Hk. f_equal. fold N in Hk.
    rewrite Z.mod_small by lia. lia.
  - intros n fuel w w' Hrun.
    by apply (sendBlocks_file_sent n fuel s c 1 w w').
  - intros n fuel w acks rest Hf Hn Hw Hin Hacks.
    by apply (sendBlocks_file_prompt n fuel s c 1 w acks rest).
  - intros h fuel filename w acks rest Hr Hf Hw Hin Hacks.
    by apply (serveRRQ_file_prompt h fuel s filename c w acks rest).
Qed.

(** ** The peer and the backend *)

Lemma onTransport_notReadFile tr :
  Forall onTransport tr -> Forall notReadFile tr.
Proof. induction 1 as [|[] tr Hx _ IH]; by constructor. Qed.

(** C10, as the code has it.  [serveRRQ] calls [ReadFile] once, first of
    all, with the zero [net.UDPAddr] and the file name of the request; the
    address of the peer does not come into it. *)
Theorem rrq_readfile_zero_addr {R : Type} `{ReadCloser R} (h : Handler R)
  (fuel : nat) (s : session) (filename : string)
  (options : gmap string string) (w w' : World) :
  serveRRQ h fuel s filename options w = Ok tt w' ->
  exists tr,
    trace w' = trace w ++ EvReadFile zeroUDPAddr filename :: tr /\
    Forall notReadFile tr.
Proof.
  unfold serveRRQ. intros Hb.
  apply bind_Ok in Hb as ([] & w0 & [= <-] & Hk). simpl in Hk.
  set (w0 := mkWorld _ _ _ _ _) in Hk.
  assert (forall w2 tr, trace w2 = trace w0 ++ tr -> Forall notReadFile tr ->
    exists tr0, trace w2 = trace w ++ EvReadFile zeroUDPAddr filename :: tr0
      /\ Forall notReadFile tr0) as Hfin.
  { intros w2 tr -> Hall. exists tr. split; [|done].
    unfold w0. simpl. by rewrite <- app_assoc. }
  destruct (ReadFile h zeroUDPAddr filename) as [rc|err].
  - apply deferred_Ok in Hk as (w1 & Hbody & [= <-]).
    assert (exists tr, trace w1 = trace w0 ++ tr /\ Forall notReadFile tr)
      as (tr & Ht & Hall).
    { assert (forall s1 wa wb,
        (sendBlocks fuel fuel s1 rc 1 ;;; ret tt) wa = Ok tt wb ->
        exists tr, trace wb = trace wa ++ tr /\ Forall notReadFile tr) as Htr.
      { intros s1 wa wb Hx. apply bind_Ok in Hx as (c & wc & Hx & [= <-]).
        apply sendBlocks_transport in Hx as (tr & Ht & Hall).
        exists tr. split; [done|]. by apply onTransport_notReadFile. }
      destruct (decide (0 < size options)%nat); [|by eapply Htr].
      destruct (negotiate s options) as [[accepted|err] s1].
      - apply bind_Ok in Hbody as (r & wa & Hx & Hk).
        apply attempts_shape in Hx as (tr1 & Ht1 & Hs1).
        apply attempts_transport, onTransport_notReadFile in Hs1.
        destruct r as [q|e].
        + apply Htr in Hk as (tr2 & Ht2 & Hall2). exists (tr1 ++ tr2).
          split; [by rewrite Ht2, Ht1, <- app_assoc|by apply Forall_app].
        + injection Hk as <-. by exists tr1.
      - apply bind_Ok in Hbody as (r & wa & Hx & [= <-]).
        apply write_Ok in Hx as (Hx & _). eexists. split; [done|].
        by repeat constructor. }
    apply (Hfin _ (tr ++ [EvClose])).
    + simpl. by rewrite Ht, <- app_assoc.
    + apply Forall_app. split; [done|]. by repeat constructor.
  - apply bind_Ok in Hk as (r & w1 & Hx & [= <-]).
    assert (exists p, write p w0 = Ok r w1) as [p Hw].
    { unfold writeError in Hx. repeat case_match; by eexists. }
    apply write_Ok in Hw as (Hw & _).
    apply (Hfin _ [EvWrite p r]); [done|]. by repeat constructor.
Qed.

(** The request the specification's count fails on: a file of 512 bytes
    served in blocks of 512.  One DATA packet goes out, not
    [512 / 512 + 1], and no empty block follows it. *)
Lemma rrq_exact_multiple_counterexample :
  exists w',
    serve (dirHandler sampleDir) 4
      (sampleWorld [from (packetRRQ "boot.img" ∅); from (packetACK 1)])
    = Ok tt w' /\
    List.filter isDATA (sent (trace w')) = [packetDATA 1 file512] /\
    length (List.filter isDATA (sent (trace w')))
      <> (length file512 / 512 + 1)%nat /\
    forall bn, ~ In (packetDATA bn []) (sent (trace w')).
Proof.
  eexists. split; [vm_compute; reflexivity|].
  split; [vm_compute; reflexivity|].
  split; [vm_compute; lia|].
  intros bn. vm_compute. intros [H|[]]. discriminate H.
Qed.

(** A request from [peerA]: the handler is called with the zero address,
    which is not the peer's. *)
Lemma rrq_peer_counterexample :
  exists w',
    serve (dirHandler sampleDir) 4
      (sampleWorld [from (packetRRQ "motd" ∅); from (packetACK 1)])
    = Ok tt w' /\
    remote w' = peerA /\
    In (EvReadFile zeroUDPAddr "motd") (trace w') /\
    ~ In (EvReadFile peerA "motd") (trace w') /\
    zeroUDPAddr <> peerA.
Proof.
  eexists. split; [vm_compute; reflexivity|].
  split; [reflexivity|].
  split; [vm_compute; tauto|].
  split; [|discriminate].
  vm_compute. intuition discriminate.
Qed.

(** ** The theorems at sample sessions *)

Lemma negotiate_clamps_witness :
  blksize (negotiate newSession sampleOptions).2 = 65464 /\
  (forall accepted : gmap string string,
      (negotiate newSession sampleOptions).1 = inl accepted ->
      accepted !! "blksize" = Some "65464" /\
      timeout (negotiate newSession sampleOptions).2 = 1 /\
      accepted !! "timeout" = Some "1") /\
  exists accepted, (negotiate newSession sampleOptions).1 = inl accepted.
Proof.
  destruct (negotiate_clamps newSession sampleOptions) as (Hb & Ht & _ & Hok).
  destruct (Hb "100000" 100000 eq_refl eq_refl) as [Hstore Hecho].
  split; [exact Hstore|]. split.
  - intros accepted Hacc. split; [exact (Hecho accepted Hacc)|].
    exact (Ht "0" 0 eq_refl eq_refl accepted Hacc).
  - apply Hok; intros v [= <-]; eexists; reflexivity.
Defined.

Lemma negotiate_no_rollback_witness :
  ({[ "blksize" := "4"; "timeout" := "soon" ]} : gmap string string)
    !! "blksize" = Some "4" /\
  strconv.Atoi "4" = inl 4 /\
  ({[ "blksize" := "4"; "timeout" := "soon" ]} : gmap string string)
    !! "timeout" = Some "soon" /\
  strconv.Atoi "soon" = inr (NumError "Atoi" "soon" ErrSyntax) /\
  negotiate newSession {[ "blksize" := "4"; "timeout" := "soon" ]}
  = (inr (NumError "Atoi" "soon" ErrSyntax), mkSession 8 3).
Proof.
  split; [reflexivity|]. split; [reflexivity|].
  split; [reflexivity|]. split; [reflexivity|].
  apply (negotiate_no_rollback newSession
           {[ "blksize" := "4"; "timeout" := "soon" ]} "4" "soon" 4
           (NumError "Atoi" "soon" ErrSyntax)); reflexivity.
Defined.

Lemma writeAndWaitForPacket_three_sends_witness :
  (length (inbox (sampleWorld [from (packetACK 7)])) < 2)%nat /\
  exists w',
    writeAndWaitForPacket 2 newSession (packetDATA 1 file5) (ackValidator 1)
      (sampleWorld [from (packetACK 7)]) = Ok (inr ErrTimeout) w' /\
    sent (trace w')
    = [packetDATA 1 file5; packetDATA 1 file5; packetDATA 1 file5].
Proof.
  split; [simpl; lia|].
  destruct (writeAndWaitForPacket_three_sends 2 newSession
              (packetDATA 1 file5) (ackValidator 1)
              (sampleWorld [from (packetACK 7)]))
    as (r & w' & tr & Hrun & Ht & _ & Hq); [simpl; lia|].
  simpl in Ht.
  assert (Forall (quiet (ackValidator 1)) tr) as Hall.
  { rewrite <- Ht. pose proof Hrun as Hc. vm_compute in Hc.
    injection Hc as _ <-. vm_compute. repeat constructor. }
  destruct (Hq Hall) as [Hr Hs]. exists w'. rewrite <- Hr, Ht.
  split; [exact Hrun|exact Hs].
Defined.

Lemma rrq_backend_error_witness :
  ReadFile (dirHandler sampleDir) zeroUDPAddr "nosuch" = inr os_ErrNotExist /\
  exists wr w',
    serveRRQ (dirHandler sampleDir) 4 newSession "nosuch" ∅ (sampleWorld [])
    = Ok tt w' /\
    trace w' =
      [EvReadFile zeroUDPAddr "nosuch";
       EvWrite (packetERROR 1 "file does not exist") wr].
Proof.
  split; [reflexivity|].
  destruct (rrq_backend_error (dirHandler sampleDir) 4 newSession "nosuch" ∅
              (sampleWorld []) os_ErrNotExist eq_refl)
    as (code & wr & w' & Hrun & Ht & _ & Hc & _).
  exists wr, w'. split; [exact Hrun|].
  rewrite Ht, (Hc eq_refl). reflexivity.
Defined.

Lemma wrq_not_supported_witness :
  inbox (sampleWorld [from (packetWRQ "motd" sampleOptions)])
  = mkIncoming 1000000 (inl (packetWRQ "motd" sampleOptions)) :: [] /\
  exists w',
    serve (dirHandler sampleDir) 4
      (sampleWorld [from (packetWRQ "motd" sampleOptions)]) = Ok tt w' /\
    sent (trace w') = [packetERROR 0 "not supported"].
Proof.
  split; [reflexivity|].
  destruct (wrq_not_supported (dirHandler sampleDir) 4
              (sampleWorld [from (packetWRQ "motd" sampleOptions)])
              1000000 "motd" sampleOptions [] eq_refl)
    as (wr & w' & Hrun & _ & Hs & _).
  exists w'. split; [exact Hrun|exact Hs].
Defined.

Lemma rrq_negotiation_error_witness :
  ReadFile (dirHandler sampleDir) zeroUDPAddr "motd" = inl file5 /\
  ({[ "blksize" := "big" ]} : gmap string string) !! "blksize" = Some "big" /\
  strconv.Atoi "big" = inr (NumError "Atoi" "big" ErrSyntax) /\
  exists err wr w',
    (negotiate newSession {[ "blksize" := "big" ]}).1 = inr err /\
    serveRRQ (dirHandler sampleDir) 4 newSession "motd"
      {[ "blksize" := "big" ]} (sampleWorld []) = Ok tt w' /\
    trace w' =
      [EvReadFile zeroUDPAddr "motd";
       EvWrite (packetERROR 8 (Error err)) wr;
       EvClose].
Proof.
  split; [reflexivity|]. split; [reflexivity|]. split; [reflexivity|].
  destruct (rrq_negotiation_error (dirHandler sampleDir) 4 newSession "motd"
              {[ "blksize" := "big" ]} (sampleWorld []) file5 eq_refl)
    as (err & wr & w' & Hn & Hrun & Ht & _).
  { left. exists "big", (NumError "Atoi" "big" ErrSyntax).
    split; reflexivity. }
  exists err, wr, w'. split; [exact Hn|]. split; [exact Hrun|exact Ht].
Defined.

Lemma writeAndWaitForPacket_read_error_witness :
  (length (inbox (sampleWorld
     [mkIncoming 5 (inr (errorString "short packet"))])) < 2)%nat /\
  exists w' d wr,
    writeAndWaitForPacket 2 newSession (packetDATA 1 file5) (ackValidator 1)
      (sampleWorld [mkIncoming 5 (inr (errorString "short packet"))])
    = Ok (inr (errorString "short packet")) w' /\
    trace w' =
      [EvWrite (packetDATA 1 file5) None;
       EvRead d (inr (errorString "short packet"));
       EvWrite (packetERROR 0 "short packet") wr].
Proof.
  split; [simpl; lia|].
  destruct (writeAndWaitForPacket_read_error 2 newSession
              (packetDATA 1 file5) (ackValidator 1)
              (sampleWorld [mkIncoming 5 (inr (errorString "short packet"))]))
    as (r & w' & tr & Hrun & Ht & Hall); [simpl; lia|].
  simpl in Ht.
  assert (In (EvRead 3000000000 (inr (errorString "short packet"))) tr)
    as Hin.
  { rewrite <- Ht. pose proof Hrun as Hc. vm_compute in Hc.
    injection Hc as _ <-. vm_compute. tauto. }
  destruct (Hall _ _ Hin ltac:(discriminate)) as (Hr & _).
  subst r. exists w', 3000000000, None. split; [exact Hrun|].
  pose proof Hrun as Hc. vm_compute in Hc. injection Hc as <-.
  reflexivity.
Defined.

Lemma ackValidator_exact_witness :
  ackValidator 2 (packetACK 2) = true /\
  ackValidator 2 (packetACK 1) <> true /\
  awaitReply 2 (ackValidator 2) 3000000000 0
    (sampleWorld [from (packetACK 1); from (packetACK 2)])
  = awaitReply 1 (ackValidator 2) 3000000000 1000000
      (mkWorld peerA [from (packetACK 2)] [] 1000000
         [EvRead 3000000000 (inl (packetACK 1))]).
Proof.
  destruct (ackValidator_exact 2) as (Hv & Hstep & _).
  split; [by apply Hv|]. split.
  - intros Hacc. apply Hv in Hacc. discriminate Hacc.
  - apply (Hstep 1%nat 3000000000 0
             (sampleWorld [from (packetACK 1); from (packetACK 2)])
             1000000 1 [from (packetACK 2)]); [lia|lia|reflexivity].
Defined.

Lemma rrq_blocks_sent_witness :
  0 < blksize (mkSession 8 3) /\ 0 < timeout (mkSession 8 3) /\
  exists w' tr,
    sendBlocks 3 1 (mkSession 8 3) file16 1
      (sampleWorld [from (packetACK 1); from (packetACK 2)]) = Ok Next w' /\
    inbox w' = [] /\
    trace w' = tr /\
    sent tr = dataBlocks 8 1 file16.
Proof.
  split; [simpl; lia|]. split; [simpl; lia|].
  destruct (rrq_blocks_sent (mkSession 8 3) file16)
    as (_ & _ & _ & _ & _ & Hrun & _);
    [simpl; lia|simpl; lia|].
  apply (Hrun 3%nat 1%nat
           (sampleWorld [from (packetACK 1); from (packetACK 2)])
           [from (packetACK 1); from (packetACK 2)] []).
  - lia.
  - vm_compute. lia.
  - constructor.
  - reflexivity.
  - reflexivity.
Defined.

Lemma rrq_readfile_zero_addr_witness :
  exists w' tr,
    serveRRQ (dirHandler sampleDir) 4 newSession "motd" ∅
      (sampleWorld [from (packetACK 1)]) = Ok tt w' /\
    trace w' = EvReadFile zeroUDPAddr "motd" :: tr /\
    Forall notReadFile tr.
Proof.
  destruct (serveRRQ (dirHandler sampleDir) 4 newSession "motd" ∅
              (sampleWorld [from (packetACK 1)])) as [[] w'|w'|] eqn:Hrun;
    [|vm_compute in Hrun; discriminate Hrun..].
  destruct (rrq_readfile_zero_addr (dirHandler sampleDir) 4 newSession "motd" ∅
              (sampleWorld [from (packetACK 1)]) w' Hrun)
    as (tr & Ht & Hall).
  exists w', tr. split; [reflexivity|]. split; [exact Ht|exact Hall].
Defined.

(** * Further properties of the handler *)

(** ** The dispatch of [serve] *)

(** When the first read of a session fails, be it with a timeout, [serve]
    answers with one ERROR packet, code 0 and the error's text, and
    returns: the backend is not called and nothing more is read. *)
Theorem serve_read_error {R : Type} `{ReadCloser R} (h : Handler R)
  (fuel : nat) (w w1 : World) (e : error) :
  read 0 w = Ok (inr e) w1 ->
  exists wr w',
    serve h fuel w = Ok tt w' /\
    trace w' = trace w ++
      [EvRead 0 (inr e); EvWrite (packetERROR 0 (Error e)) wr] /\
    inbox w' = inbox w1.
Proof.
  intros Hr. unfold serve, bind at 1. rewrite Hr.
  apply read_Ok in Hr as (Ht & _).
  unfold bind, writeError. rewrite write_eq. simpl.
  eexists _, _. split; [reflexivity|]. simpl.
  rewrite Ht, <- app_assoc. done.
Qed.

(** A first packet that is neither a read nor a write request is answered
    with one ERROR packet, code 4 and an empty message; the backend is not
    called and nothing more is read. *)
Theorem serve_illegal_operation {R : Type} `{ReadCloser R} (h : Handler R)
  (fuel : nat) (w w1 : World) (p : packet) :
  read 0 w = Ok (inl p) w1 ->
  (forall f o, p <> packetRRQ f o) -> (forall f o, p <> packetWRQ f o) ->
  exists wr w',
    serve h fuel w = Ok tt w' /\
    trace w' = trace w ++
      [EvRead 0 (inl p); EvWrite (packetERROR 4 EmptyString) wr] /\
    inbox w' = inbox w1.
Proof.
  intros Hr Hrrq Hwrq. unfold serve, bind at 1. rewrite Hr.
  apply read_Ok in Hr as (Ht & _).
  destruct p as [f o|f o| | | |]; try (by destruct (Hrrq f o));
    try (by destruct (Hwrq f o));
    unfold bind, writeError; rewrite write_eq; simpl;
    eexists _, _; (split; [reflexivity|]); simpl;
    rewrite Ht, <- app_assoc; done.
Qed.

(** ** More on the reliable exchange *)

Lemma sent_nil_no_write tr q r : sent tr = [] -> ~ In (EvWrite q r) tr.
Proof.
  induction tr as [|[] tr IH]; simpl; intros Hs Hin; try done;
    destruct Hin as [[=]|Hin]; by apply IH.
Qed.

Lemma await_failed_write v c tr q e :
  AwaitShape v c tr -> In (EvWrite q (Some e)) tr ->
  exists pre, tr = pre ++ [EvWrite q (Some e)].
Proof.
  induction 1; simpl; intros Hin.
  - done.
  - destruct Hin as [[=]|[]].
  - destruct Hin as [[=]|[]].
  - destruct Hin as [[=]|[[= <- <-]|[]]]. by eexists [_].
  - destruct Hin as [[=]|Hin]. destruct (IHAwaitShape Hin) as [pre ->].
    by exists (EvRead d (inl p) :: pre).
Qed.

Lemma attempts_failed_write p v n r tr q e :
  AttemptsShape p v n r tr -> In (EvWrite q (Some e)) tr ->
  exists pre, tr = pre ++ [EvWrite q (Some e)].
Proof.
  induction 1; simpl; intros Hin.
  - done.
  - destruct Hin as [[= <- <-]|[]]. by exists [].
  - destruct Hin as [[=]|Hin].
    destruct (await_failed_write _ _ _ _ _ H Hin) as [pre ->].
    by exists (EvWrite p None :: pre).
  - destruct Hin as [[=]|Hin]. apply in_app_or in Hin as [Hin|Hin].
    + apply await_next in H as [Hs _].
      by destruct (sent_nil_no_write _ _ _ Hs Hin).
    + destruct (IHAttemptsShape Hin) as [pre ->].
      exists (EvWrite p None :: tr ++ pre). simpl. by rewrite <- app_assoc.
Qed.

(** A write that fails is the last thing an exchange does.  When it is the
    first write of the packet, the exchange returns that error at once: it
    does not try again, does not read and reports nothing to the peer. *)
Theorem writeAndWaitForPacket_write_failure (fuel : nat) (s : session)
  (p : packet) (v : packetValidator) (w : World) :
  (forall e, hd None (wres w) = Some e ->
     writeAndWaitForPacket fuel s p v w
     = Ok (inr e)
          (mkWorld (remote w) (inbox w) (tl (wres w)) (clock w)
             (trace w ++ [EvWrite p (Some e)]))) /\
  (forall r w',
     writeAndWaitForPacket fuel s p v w = Ok r w' ->
     exists tr, trace w' = trace w ++ tr /\
       forall q e, In (EvWrite q (Some e)) tr ->
         exists pre, tr = pre ++ [EvWrite q (Some e)]).
Proof.
  split.
  - intros e He. unfold writeAndWaitForPacket. simpl. unfold bind.
    by rewrite write_eq, He.
  - intros r w' Hrun. unfold writeAndWaitForPacket in Hrun.
    apply attempts_shape in Hrun as (tr & Ht & Hs).
    exists tr. split; [done|]. intros q e.
    by apply (attempts_failed_write _ _ _ _ _ _ _ Hs).
Qed.

Lemma await_accept_last v q tr :
  AwaitShape v (Return (inl q)) tr ->
  exists pre d, tr = pre ++ [EvRead d (inl q)] /\ Forall (quiet v) pre.
Proof.
  remember (Return (inl q)) as c eqn:Hc. induction 1; try discriminate.
  - injection Hc as ->. by exists [], d.
  - destruct (IHAwaitShape Hc) as (pre & d' & -> & Hq).
    exists (EvRead d (inl p) :: pre), d'. split; [done|]. by constructor.
Qed.

Lemma attempts_accept_last p v n q tr :
  AttemptsShape p v n (inl q) tr ->
  exists pre d, tr = pre ++ [EvRead d (inl q)] /\ Forall (quiet v) pre.
Proof.
  remember (inl q) as r eqn:Hr. induction 1; try discriminate.
  - subst r. apply await_accept_last in H as (pre & d & -> & Hq).
    exists (EvWrite p None :: pre), d. split; [done|]. by constructor.
  - destruct (IHAttemptsShape Hr) as (pre & d & -> & Hq).
    apply await_next in H as [_ Hq0].
    exists (EvWrite p None :: tr ++ pre), d. split.
    + simpl. by rewrite <- app_assoc.
    + constructor; [done|]. by apply Forall_app.
Qed.

(** An exchange that returns a packet returns one its validator accepts,
    and the read of that packet is the last thing it did.  Before it the
    exchange wrote its outbound packet, one to three times, and nothing
    else; all it read before were timeouts and packets the validator
    turned down. *)
Theorem writeAndWaitForPacket_accepts (fuel : nat) (s : session)
  (p : packet) (v : packetValidator) (w w' : World) (q : packet) :
  writeAndWaitForPacket fuel s p v w = Ok (inl q) w' ->
  v q = true /\
  exists pre d k,
    trace w' = trace w ++ pre ++ [EvRead d (inl q)] /\
    Forall (quiet v) pre /\
    sent pre = repeat p k /\ (1 <= k <= 3)%nat.
Proof.
  intros Hrun. unfold writeAndWaitForPacket in Hrun.
  apply attempts_shape in Hrun as (tr & Ht & Hs).
  destruct (attempts_accept _ _ _ _ _ Hs) as (Hv & k & Hk & Hsent).
  destruct (attempts_accept_last _ _ _ _ _ Hs) as (pre & d & -> & Hq).
  split; [done|]. exists pre, d, k. repeat split; try done; try lia.
  rewrite sent_app in Hsent. simpl in Hsent. by rewrite app_nil_r in Hsent.
Qed.

Lemma attempts_round_silence n fuel s p v w dt rest :
  (0 < fuel)%nat -> 0 < timeout s ->
  hd None (wres w) = None ->
  inbox w = silence dt :: rest ->
  attempts (S n) fuel s p v w
  = attempts n fuel s p v
      (mkWorld (remote w) rest (tl (wres w)) (clock w + dt)
         (trace w ++
            [EvWrite p None; EvRead (timeout s * Second) (inr ErrTimeout)])).
Proof.
  intros Hf Ht Hw Hin. simpl.
  unfold bind at 1. rewrite write_eq, Hw. unfold bind at 1, Now. simpl.
  destruct fuel as [|fuel]; [lia|]. unfold bind at 1. simpl.
  assert ((clock w <? clock w + timeout s * Second)%Z = true) as ->.
  { apply Z.ltb_lt. unfold Second. lia. }
  unfold bind at 1, read. simpl. rewrite Hin. cbn [reply elapsed silence].
  destruct (decide (ErrTimeout = ErrTimeout)); [|done].
  unfold ret. rewrite <- app_assoc. simpl.
  replace (clock w + timeout s * Second - clock w) with (timeout s * Second)
    by lia.
  done.
Qed.

Lemma attempts_round_prompt n fuel s p v w dt q rest :
  (0 < fuel)%nat -> 0 < timeout s ->
  hd None (wres w) = None ->
  inbox w = mkIncoming dt (inl q) :: rest -> v q = true ->
  attempts (S n) fuel s p v w =
  Ok (inl q)
     (mkWorld (remote w) rest (tl (wres w)) (clock w + dt)
        (trace w ++ [EvWrite p None; EvRead (timeout s * Second) (inl q)])).
Proof.
  intros Hf Ht Hw Hin Hv. simpl.
  unfold bind at 1. rewrite write_eq, Hw. unfold bind at 1, Now. simpl.
  destruct fuel as [|fuel]; [lia|]. unfold bind at 1. simpl.
  assert ((clock w <? clock w + timeout s * Second)%Z = true) as ->.
  { apply Z.ltb_lt. unfold Second. lia. }
  unfold bind at 1, read. simpl. rewrite Hin. cbn [reply elapsed].
  rewrite Hv. unfold ret. rewrite <- app_assoc. simpl.
  replace (clock w + timeout s * Second - clock w) with (timeout s * Second)
    by lia.
  done.
Qed.

Lemma attempts_after_silence n fuel s p v (dts : list Z) w dt q rest :
  (0 < fuel)%nat -> 0 < timeout s ->
  Forall (fun r => r = None) (wres w) -> v q = true ->
  inbox w = map silence dts ++ mkIncoming dt (inl q) :: rest ->
  exists w' tr,
    trace w' = trace w ++ tr /\
    ((length dts < n)%nat ->
       attempts n fuel s p v w = Ok (inl q) w' /\
       inbox w' = rest /\ sent tr = repeat p (S (length dts))) /\
    ((n <= length dts)%nat ->
       attempts n fuel s p v w = Ok (inr ErrTimeout) w' /\
       inbox w' = drop n (inbox w) /\ sent tr = repeat p n).
Proof.
  intros Hf HT Hw Hv. revert dts w Hw.
  induction n as [|n IH]; intros dts w Hw Hin.
  - exists w, []. rewrite app_nil_r. split; [done|]. split; [lia|].
    intros _. by rewrite drop_0.
  - destruct dts as [|d dts]; simpl in Hin.
    + exists (mkWorld (remote w) rest (tl (wres w)) (clock w + dt)
                (trace w ++
                   [EvWrite p None; EvRead (timeout s * Second) (inl q)])),
             [EvWrite p None; EvRead (timeout s * Second) (inl q)].
      split; [done|]. split; [|simpl; lia].
      intros _.
      rewrite (attempts_round_prompt n fuel s p v w dt q rest);
        try done. by destruct Hw.
    + destruct (IH dts
                  (mkWorld (remote w)
                     (map silence dts ++ mkIncoming dt (inl q) :: rest)
                     (tl (wres w)) (clock w + d)
                     (trace w ++
                        [EvWrite p None;
                         EvRead (timeout s * Second) (inr ErrTimeout)])))
        as (w' & tr & Ht & Hlt & Hge).
      { simpl. destruct Hw; [constructor|done]. }
      { done. }
      exists w', (EvWrite p None
                  :: EvRead (timeout s * Second) (inr ErrTimeout) :: tr).
      split; [simpl in Ht; by rewrite Ht, <- app_assoc|].
      rewrite (attempts_round_silence n fuel s p v w d
                 (map silence dts ++ mkIncoming dt (inl q) :: rest));
        try done; [|by destruct Hw].
      split.
      * intros Hl. simpl in Hl. destruct Hlt as (? & ? & Hs); [lia|].
        repeat split; try done. simpl. by rewrite Hs.
      * intros Hl. simpl in Hl. destruct Hge as (? & ? & Hs); [lia|].
        repeat split; try done.
        -- rewrite Hin. done.
        -- simpl. by rewrite Hs.
Qed.

(** Lost replies.  When the reply the validator accepts comes after at most
    two rounds of silence, the exchange returns it, having written its
    packet once more than there were silent rounds.  After three silent
    rounds the exchange has given up with [ErrTimeout]: the packet went out
    three times and a reply that comes later is left unread. *)
Theorem writeAndWaitForPacket_retry (fuel : nat) (s : session) (p : packet)
  (v : packetValidator) (w : World) (dts : list Z) (dt : Z) (q : packet)
  (rest : list Incoming) :
  (0 < fuel)%nat -> 0 < timeout s ->
  Forall (fun r => r = None) (wres w) -> v q = true ->
  inbox w = map silence dts ++ mkIncoming dt (inl q) :: rest ->
  exists w' tr,
    trace w' = trace w ++ tr /\
    ((length dts <= 2)%nat ->
       writeAndWaitForPacket fuel s p v w = Ok (inl q) w' /\
       inbox w' = rest /\ sent tr = repeat p (S (length dts))) /\
    ((length dts = 3)%nat ->
       writeAndWaitForPacket fuel s p v w = Ok (inr ErrTimeout) w' /\
       inbox w' = mkIncoming dt (inl q) :: rest /\ sent tr = [p; p; p]).
Proof.
  intros Hf HT Hw Hv Hin. unfold writeAndWaitForPacket.
  destruct (attempts_after_silence 3 fuel s p v dts w dt q rest Hf HT Hw Hv Hin)
    as (w' & tr & Ht & Hlt & Hge).
  exists w', tr. split; [done|]. split.
  - intros Hl. apply Hlt. lia.
  - intros Hl. destruct Hge as (Hrun & Hi & Hs); [lia|].
    split; [done|]. split; [|done]. rewrite Hi, Hin.
    destruct dts as [|a [|b [|c [|]]]]; try done.
Qed.

(** ** More on negotiation *)

(** [negotiate] looks at the options [blksize] and [timeout] and at nothing
    else: two requests that agree on them are negotiated alike, the
    accepted options are the recognised ones among the requested, and a
    request without any of them is accepted with no option and leaves the
    session as it was. *)
Theorem negotiate_recognised_only (s : session) (o : gmap string string) :
  (forall o' : gmap string string,
      o' !! "blksize" = o !! "blksize" -> o' !! "timeout" = o !! "timeout" ->
      negotiate s o' = negotiate s o) /\
  (forall accepted : gmap string string,
      (negotiate s o).1 = inl accepted ->
      forall k, is_Some (accepted !! k) <-> recognised k /\ is_Some (o !! k)) /\
  (o !! "blksize" = None -> o !! "timeout" = None ->
   negotiate s o = (inl ∅, s)).
Proof.
  split; [|split].
  - intros o' Hb Ht. unfold negotiate. by rewrite Hb, Ht.
  - intros accepted Hacc k. unfold recognised.
    unfold negotiate in Hacc.
    destruct (o !! "blksize") as [b|] eqn:Hb;
      [destruct (strconv.Atoi b); [|done]|];
      (destruct (o !! "timeout") as [t|] eqn:Ht;
        [destruct (strconv.Atoi t); [|done]|]);
      simpl in Hacc; injection Hacc as <-;
      destruct (decide (k = "blksize")) as [Hkb|Hkb];
      destruct (decide (k = "timeout")) as [Hkt|Hkt]; subst; try done;
      rewrite ?lookup_insert_eq, ?lookup_insert_ne, ?lookup_empty by done;
      rewrite ?lookup_insert_eq, ?Hb, ?Ht;
      (split; [intros [x Hx]|intros [Hk [x Hx]]]); try done;
      try (split; eauto; done); try (destruct Hk; done); eauto.
  - intros Hb Ht. unfold negotiate. by rewrite Hb, Ht.
Qed.

(** Through any negotiation, failed ones too, the session's block size
    stays within [8, 65464] and its timeout within [1, 255].  What a
    negotiation accepts is the decimal text of what the session then
    holds, and an option that was not requested leaves its field alone. *)
Theorem negotiate_in_range (s : session) (o : gmap string string) :
  inRange s ->
  inRange (negotiate s o).2 /\
  (forall accepted : gmap string string,
      (negotiate s o).1 = inl accepted ->
      (forall v, accepted !! "blksize" = Some v ->
                 v = strconv.Itoa (blksize (negotiate s o).2)) /\
      (forall v, accepted !! "timeout" = Some v ->
                 v = strconv.Itoa (timeout (negotiate s o).2))) /\
  (o !! "blksize" = None -> blksize (negotiate s o).2 = blksize s) /\
  (o !! "timeout" = None -> timeout (negotiate s o).2 = timeout s).
Proof.
  intros [Hb Ht]. unfold negotiate, inRange.
  pose proof (clamp_range) as Hc.
  destruct (o !! "blksize") as [b|] eqn:Eb;
    [destruct (strconv.Atoi b) as [i|e]|];
    (destruct (o !! "timeout") as [t|] eqn:Et;
      [destruct (strconv.Atoi t) as [j|e']|]); simpl;
    (split; [split; try done; by apply Hc|]);
    (split; [|done]);
    intros accepted Hacc; try done; injection Hacc as <-;
    split; intros v;
    rewrite ?lookup_insert_eq, ?lookup_insert_ne, ?lookup_empty by done;
    rewrite ?lookup_insert_eq; by intros [= <-].
Qed.

Lemma allFrom_spec f n i :
  allFrom f n i = true ->
  forall j, i <= j < i + Z.of_nat n -> f j = true.
Proof.
  revert i. induction n as [|n IH]; intros i Hall j Hj; [lia|].
  simpl in Hall. apply andb_prop in Hall as [Hi Hrest].
  destruct (decide (j = i)) as [->|Hne]; [done|].
  apply (IH (i + 1)); [done|lia].
Qed.

(** [strconv.Atoi] reads back the text [strconv.Itoa] writes, for every
    value a negotiated field can hold. *)
Lemma Atoi_Itoa i : 1 <= i <= 65464 -> strconv.Atoi (strconv.Itoa i) = inl i.
Proof.
  intros Hi.
  assert (allFrom readsBack (Z.to_nat 65464) 1 = true) as Hall
    by (vm_compute; reflexivity).
  pose proof (allFrom_spec _ _ _ Hall i ltac:(lia)) as Hrb.
  unfold readsBack in Hrb.
  destruct (strconv.Atoi (strconv.Itoa i)) as [j|e]; [|done].
  apply Z.eqb_eq in Hrb. by subst.
Qed.

(** The options a negotiation accepted are a fixed point of [negotiate]:
    requested again, on the session the negotiation left, they are accepted
    as they are and the session stays as it is. *)
Theorem negotiate_accepted_again (s : session) (o : gmap string string)
  (accepted : gmap string string) (s' : session) :
  negotiate s o = (inl accepted, s') ->
  negotiate s' accepted = (inl accepted, s').
Proof.
  unfold negotiate at 1.
  pose proof clamp_range as Hc.
  destruct (o !! "blksize") as [b|] eqn:Eb;
    [destruct (strconv.Atoi b) as [i|e]; [|done]|];
    (destruct (o !! "timeout") as [t|] eqn:Et;
      [destruct (strconv.Atoi t) as [j|e']; [|done]|]);
    simpl; intros [= <- <-]; unfold negotiate; simpl;
    rewrite ?lookup_insert_eq, ?lookup_insert_ne, ?lookup_empty by done;
    rewrite ?lookup_insert_eq;
    rewrite ?Atoi_Itoa by (split; [apply (Z.le_trans _ 8); [done|]|];
                           apply Hc; done) ;
    rewrite ?Atoi_Itoa by (pose proof (Hc j 1 255 ltac:(done)); lia);
    simpl;
    rewrite ?(proj2 (proj2 (clamp_spec _ 8 65464 ltac:(done))))
      by (apply Hc; done);
    rewrite ?(proj2 (proj2 (clamp_spec _ 1 255 ltac:(done))))
      by (apply Hc; done);
    try done.
Qed.

(** ** More on the block loop *)

Lemma repeated_one p k : repeated [p] [k] = repeat p k.
Proof. unfold repeated. simpl. by rewrite app_nil_r. Qed.

(** What any run of the block loop has written, over any reader. *)
Lemma sendBlocks_shape {R : Type} `{ReadCloser R} n fuel s (rc : R) bn w c w' :
  sendBlocks n fuel s rc bn w = Ok c w' ->
  exists tr ds reps tail,
    trace w' = trace w ++ tr /\
    Forall onTransport tr /\
    sent tr = repeated (numbered bn ds) reps ++ tail /\
    length reps = length ds /\
    Forall (fun r => (1 <= r <= 3)%nat) reps /\
    Forall (fun d => (0 < length d <= Z.to_nat (blksize s))%nat) ds /\
    (tail = [] \/ exists m, tail = [packetERROR 0 m]) /\
    (c = Next -> tail = []).
Proof.
  revert rc bn w. induction n as [|n IH]; intros rc bn w; simpl; [done|].
  pose proof (Read_fits rc (Z.to_nat (blksize s))) as Hfit.
  destruct (Read rc (Z.to_nat (blksize s))) as [[data err] rc'].
  simpl in Hfit.
  destruct (decide (length data = 0%nat)) as [Hz|Hnz].
  - destruct err as [e|]; [|done]. destruct (decide (e = io_EOF)) as [He|He].
    + intros [= <- <-]. exists [], [], [], []. rewrite app_nil_r.
      split_and!; try done; by left.
    + intros Hb. apply bind_Ok in Hb as (r & w1 & Hw & [= <- <-]).
      apply write_Ok in Hw as (Hw & _).
      exists [EvWrite (packetERROR 0 (Error e)) r], [], [],
             [packetERROR 0 (Error e)].
      split_and!; try done; [by repeat constructor|].
      right. by eexists.
  - intros Hb. apply bind_Ok in Hb as (r & w1 & Hx & Hk).
    apply attempts_shape in Hx as (tr1 & Ht1 & Hs1).
    pose proof (attempts_transport _ _ _ _ _ Hs1) as Htr1.
    destruct r as [q|e].
    + apply attempts_accept in Hs1 as (_ & k & Hk3 & Hsent).
      apply IH in Hk
        as (tr2 & ds & reps & tail & Ht2 & Htr2 & Hs2 & Hl & Hr & Hd & Htl & Hc).
      exists (tr1 ++ tr2), (data :: ds), (k :: reps), tail.
      split; [by rewrite Ht2, Ht1, <- app_assoc|].
      split; [by apply Forall_app|].
      split; [|split; [simpl; by rewrite Hl|]].
      { rewrite sent_app, Hsent, Hs2. simpl numbered.
        by rewrite repeated_cons, <- app_assoc. }
      split; [by constructor|]. split; [|done].
      constructor; [lia|done].
    + injection Hk as <- <-.
      destruct (attempts_sent _ _ _ _ _ Hs1) as (k & Hk3 & Hpos & Hsent).
      exists tr1, [data], [k].
      destruct Hsent as [Hsent|(e' & _ & _ & Hsent)].
      * exists []. rewrite app_nil_r. simpl numbered. rewrite repeated_one.
        split_and!; try done.
        -- constructor; [lia|constructor].
        -- constructor; [lia|constructor].
        -- by left.
      * exists [packetERROR 0 (Error e')]. simpl numbered.
        rewrite repeated_one.
        split_and!; try done.
        -- constructor; [lia|constructor].
        -- constructor; [lia|constructor].
        -- right. by eexists.
Qed.

Lemma numbered_lookup bn ds (k : nat) p :
  0 <= bn < 65536 ->
  numbered bn ds !! k = Some p ->
  exists d, ds !! k = Some d /\
    p = packetDATA ((bn + Z.of_nat k) mod 65536) d.
Proof.
  revert bn k. induction ds as [|d ds IH]; intros bn k Hbn; simpl; [done|].
  destruct k as [|k]; simpl.
  - intros [= <-]. exists d. split; [done|].
    by rewrite Z.add_0_r, Z.mod_small.
  - intros Hl. apply IH in Hl as (d' & Hd & ->); [|by apply Z.mod_pos_bound].
    exists d'. split; [done|]. rewrite Zplus_mod_idemp_l. do 2 f_equal. lia.
Qed.

(** The block loop, over any reader and however it ends, has written DATA
    packets and at most one ERROR packet, the last thing written.  The
    DATA packets are a sequence of blocks each written one to three times
    before the next: block [k] of them bears the number [bn + k] modulo
    65536, and holds at least one byte and at most a block size of them.
    A loop that ran to the end of the stream has written no ERROR
    packet. *)
Theorem sendBlocks_in_order {R : Type} `{ReadCloser R} (n fuel : nat)
  (s : session) (rc : R) (bn : Z) (w w' : World) (c : ctl unit) :
  0 <= bn < 65536 ->
  sendBlocks n fuel s rc bn w = Ok c w' ->
  exists tr ds reps tail,
    trace w' = trace w ++ tr /\
    sent tr = repeated (numbered bn ds) reps ++ tail /\
    length reps = length ds /\
    Forall (fun r => (1 <= r <= 3)%nat) reps /\
    Forall (fun d => (0 < length d <= Z.to_nat (blksize s))%nat) ds /\
    (forall (k : nat) p, numbered bn ds !! k = Some p ->
       exists d, ds !! k = Some d /\
         p = packetDATA ((bn + Z.of_nat k) mod 65536) d) /\
    (tail = [] \/ exists m, tail = [packetERROR 0 m]) /\
    (c = Next -> tail = []).
Proof.
  intros Hbn Hrun.
  apply sendBlocks_shape in Hrun
    as (tr & ds & reps & tail & Ht & _ & Hs & Hl & Hr & Hd & Htl & Hc).
  exists tr, ds, reps, tail. split_and!; try done.
  intros k p. by apply numbered_lookup.
Qed.

(** ** The stream of the backend *)

(** The first read of the stream, for a request without options.  A stream
    at its end, an empty file, is served by writing nothing at all.  A
    stream that fails without a byte is reported with one ERROR packet,
    code 0 and the error's text.  A stream that gives no byte and no error
    makes the session panic.  The stream is closed in all three cases. *)
Theorem serveRRQ_empty_read {R : Type} `{ReadCloser R} (h : Handler R)
  (fuel : nat) (s : session) (filename : string) (w : World) (rc rc' : R)
  (err : option error) :
  ReadFile h zeroUDPAddr filename = inl rc ->
  Read rc (Z.to_nat (blksize s)) = (([], err), rc') ->
  (0 < fuel)%nat ->
  match err with
  | None =>
      serveRRQ h fuel s filename ∅ w
      = Panic (mkWorld (remote w) (inbox w) (wres w) (clock w)
                 (trace w ++ [EvReadFile zeroUDPAddr filename; EvClose]))
  | Some e =>
      if decide (e = io_EOF) then
        serveRRQ h fuel s filename ∅ w
        = Ok tt (mkWorld (remote w) (inbox w) (wres w) (clock w)
                   (trace w ++ [EvReadFile zeroUDPAddr filename; EvClose]))
      else
        serveRRQ h fuel s filename ∅ w
        = Ok tt (mkWorld (remote w) (inbox w) (tl (wres w)) (clock w)
                   (trace w ++
                      [EvReadFile zeroUDPAddr filename;
                       EvWrite (packetERROR 0 (Error e)) (hd None (wres w));
                       EvClose]))
  end.
Proof.
  intros Hr Hread Hf. destruct fuel as [|fuel]; [lia|].
  unfold serveRRQ. rewrite Hr. unfold bind at 1, record. unfold deferred.
  destruct (decide (0 < size (∅ : gmap string string))%nat) as [Hsz|_];
    [rewrite map_size_empty in Hsz; lia|].
  unfold bind at 1. cbn [sendBlocks]. rewrite Hread.
  destruct (decide (length ([] : list Byte.byte) = 0%nat)) as [_|Hne]; [|done].
  destruct err as [e|].
  - destruct (decide (e = io_EOF)) as [He|He].
    + unfold ret, bind. simpl. by rewrite <- app_assoc.
    + unfold bind, writeError. rewrite write_eq. simpl.
      by rewrite <- !app_assoc.
  - unfold panic, bind. simpl. by rewrite <- app_assoc.
Qed.

Lemma bind_Panic {A B} (m : M A) (k : A -> M B) w w' :
  bind m k w = Panic w' ->
  m w = Panic w' \/ exists a w1, m w = Ok a w1 /\ k a w1 = Panic w'.
Proof.
  unfold bind. destruct (m w) as [a w1|w1|]; [|intros [= ->]; by left|done].
  intros Hk. right. by exists a, w1.
Qed.

Lemma write_no_panic p w w' : write p w <> Panic w'.
Proof. rewrite write_eq. done. Qed.

Lemma awaitReply_no_panic fuel v end_ now w w' :
  awaitReply fuel v end_ now w <> Panic w'.
Proof.
  revert now w. induction fuel as [|fuel IH]; intros now w; simpl; [done|].
  destruct (now <? end_)%Z; [|done].
  intros Hp. apply bind_Panic in Hp as [Hp|(r & w1 & _ & Hp)].
  - unfold read in Hp. by destruct (inbox w).
  - destruct r as [q|e].
    + destruct (v q); [done|].
      apply bind_Panic in Hp as [Hp|(now' & w2 & _ & Hp)]; [done|].
      by apply IH in Hp.
    + destruct (decide (e = ErrTimeout)); [done|].
      apply bind_Panic in Hp as [Hp|(r & w2 & _ & Hp)]; [|done].
      by apply write_no_panic in Hp.
Qed.

Lemma attempts_no_panic n fuel s p v w w' :
  attempts n fuel s p v w <> Panic w'.
Proof.
  revert w. induction n as [|n IH]; intros w; simpl; [done|].
  intros Hp. apply bind_Panic in Hp as [Hp|(e & w1 & _ & Hp)].
  - by apply write_no_panic in Hp.
  - destruct e as [e|]; [done|].
    apply bind_Panic in Hp as [Hp|(now & w2 & _ & Hp)]; [done|].
    apply bind_Panic in Hp as [Hp|(c & w3 & _ & Hp)].
    + by apply awaitReply_no_panic in Hp.
    + destruct c; [by apply IH in Hp|done].
Qed.

Lemma sendBlocks_panic_transport {R : Type} `{ReadCloser R} n fuel s (rc : R)
  bn w w' :
  sendBlocks n fuel s rc bn w = Panic w' ->
  exists tr, trace w' = trace w ++ tr /\ Forall onTransport tr.
Proof.
  revert rc bn w. induction n as [|n IH]; intros rc bn w; simpl; [done|].
  destruct (Read rc (Z.to_nat (blksize s))) as [[data err] rc'].
  destruct (decide (length data = 0%nat)) as [Hz|Hnz].
  - destruct err as [e|].
    + destruct (decide (e = io_EOF)) as [He|He]; [done|].
      intros Hp. apply bind_Panic in Hp as [Hp|(r & w1 & _ & Hp)]; [|done].
      by apply write_no_panic in Hp.
    + intros [= <-]. exists []. by rewrite app_nil_r.
  - intros Hp. apply bind_Panic in Hp as [Hp|(r & w1 & Hx & Hp)].
    + by apply attempts_no_panic in Hp.
    + apply attempts_shape in Hx as (tr1 & Ht1 & Hs1).
      apply attempts_transport in Hs1.
      destruct r as [q|e]; [|done].
      apply IH in Hp as (tr2 & Ht2 & Hs2). exists (tr1 ++ tr2). split.
      * by rewrite Ht2, Ht1, <- app_assoc.
      * by apply Forall_app.
Qed.

Lemma onTransport_no_close tr : Forall onTransport tr -> ~ In EvClose tr.
Proof.
  induction 1 as [|e tr He _ IH]; simpl; [tauto|].
  intros [->|Hin]; [done|by apply IH].
Qed.

Lemma deferred_close (body : M unit) w w' :
  deferred (record EvClose) body w = Ok tt w' \/
  deferred (record EvClose) body w = Panic w' ->
  exists w1, (body w = Ok tt w1 \/ body w = Panic w1) /\
    trace w' = trace w1 ++ [EvClose].
Proof.
  unfold deferred. destruct (body w) as [[] w1|w1|];
    unfold bind, record, ret, panic; simpl.
  - intros [[= <-]|[=]]. exists w1. split; [by left|done].
  - intros [[=]|[= <-]]. exists w1. split; [by right|done].
  - by intros [|].
Qed.

(** What [serveRRQ] does between opening and closing, returning or
    panicking: events of the transport only. *)
Lemma serveRRQ_body_transport {R : Type} `{ReadCloser R} fuel s
  (options : gmap string string) (rc : R) w w1 :
  let body :=
    (let transfer s := sendBlocks fuel fuel s rc 1 ;;; ret tt in
     if decide (0 < size options)%nat then
       let '(res, s1) := negotiate s options in
       match res with
       | inr err => writeError 8 (Error err) ;;; ret tt
       | inl accepted =>
           r <- writeAndWaitForPacket fuel s1 (packetOACK accepted)
                  (ackValidator 0) ;;
           match r with
           | inr _ => ret tt
           | inl _ => transfer s1
           end
       end
     else transfer s) in
  body w = Ok tt w1 \/ body w = Panic w1 ->
  exists tr, trace w1 = trace w ++ tr /\ Forall onTransport tr.
Proof.
  intros body Hout. subst body. cbv zeta in Hout.
  assert (forall s1 wa wb,
    (sendBlocks fuel fuel s1 rc 1 ;;; ret tt) wa = Ok tt wb \/
    (sendBlocks fuel fuel s1 rc 1 ;;; ret tt) wa = Panic wb ->
    exists tr, trace wb = trace wa ++ tr /\ Forall onTransport tr) as Htr.
  { intros s1 wa wb [Hx|Hx].
    - apply bind_Ok in Hx as (c & wc & Hx & [= <-]).
      by apply sendBlocks_transport in Hx.
    - apply bind_Panic in Hx as [Hx|(c & wc & _ & Hx)]; [|done].
      by apply sendBlocks_panic_transport in Hx. }
  destruct (decide (0 < size options)%nat); [|by eapply Htr].
  destruct (negotiate s options) as [[accepted|err] s1].
  - assert (exists r wa,
      writeAndWaitForPacket fuel s1 (packetOACK accepted) (ackValidator 0) w
      = Ok r wa /\
      (match r with inl _ => sendBlocks fuel fuel s1 rc 1 ;;; ret tt
                  | inr _ => ret tt end wa = Ok tt w1 \/
       match r with inl _ => sendBlocks fuel fuel s1 rc 1 ;;; ret tt
                  | inr _ => ret tt end wa = Panic w1))
      as (r & wa & Hx & Hk).
    { destruct Hout as [Hb|Hb].
      - apply bind_Ok in Hb as (r & wa & Hx & Hk). exists r, wa. auto.
      - apply bind_Panic in Hb as [Hb|(r & wa & Hx & Hk)].
        + by apply attempts_no_panic in Hb.
        + exists r, wa. auto. }
    apply attempts_shape in Hx as (tr1 & Ht1 & Hs1).
    apply attempts_transport in Hs1.
    destruct r as [q|e].
    + apply Htr in Hk as (tr2 & Ht2 & Hs2). exists (tr1 ++ tr2).
      split; [by rewrite Ht2, Ht1, <- app_assoc|by apply Forall_app].
    + destruct Hk as [[= <-]|[=]]. by exists tr1.
  - destruct Hout as [Hb|Hb].
    + apply bind_Ok in Hb as (r & wa & Hx & [= <-]).
      apply write_Ok in Hx as (Hx & _). eexists. split; [done|].
      by repeat constructor.
    + apply bind_Panic in Hb as [Hb|(r & wa & _ & Hb)]; [|done].
      by apply write_no_panic in Hb.
Qed.

(** A session that opened the stream closes it, once, as the last thing it
    does, whether it returns or panics; between opening and closing it
    only reads and writes datagrams.  A session whose [ReadFile] failed
    closes nothing. *)
Theorem serveRRQ_closes {R : Type} `{ReadCloser R} (h : Handler R)
  (fuel : nat) (s : session) (filename : string)
  (options : gmap string string) (w w' : World) :
  serveRRQ h fuel s filename options w = Ok tt w' \/
  serveRRQ h fuel s filename options w = Panic w' ->
  match ReadFile h zeroUDPAddr filename with
  | inl _ =>
      exists tr,
        trace w' = trace w ++ EvReadFile zeroUDPAddr filename :: tr ++ [EvClose]
        /\ Forall onTransport tr /\ ~ In EvClose tr
  | inr _ =>
      exists tr,
        trace w' = trace w ++ EvReadFile zeroUDPAddr filename :: tr
        /\ Forall onTransport tr /\ ~ In EvClose tr
  end.
Proof.
  unfold serveRRQ. intros Hout.
  set (w0 := mkWorld (remote w) (inbox w) (wres w) (clock w)
               (trace w ++ [EvReadFile zeroUDPAddr filename])).
  destruct (ReadFile h zeroUDPAddr filename) as [rc|err].
  - destruct Hout as [Hout|Hout]; unfold bind at 1, record in Hout;
      fold w0 in Hout;
      [apply (fun Hd => deferred_close _ w0 w' (or_introl Hd)) in Hout
      |apply (fun Hd => deferred_close _ w0 w' (or_intror Hd)) in Hout];
      destruct Hout as (w1 & Hbody & Hc);
      destruct (serveRRQ_body_transport fuel s options rc w0 w1 Hbody)
        as (tr & Ht & Htr);
      exists tr; (split; [|split; [done|by apply onTransport_no_close]]);
      rewrite Hc, Ht; unfold w0; simpl; by rewrite <- !app_assoc.
  - assert (exists p r, write p w0 = Ok r w') as (p & r & Hw).
    { destruct Hout as [Hout|Hout]; unfold bind at 1, record in Hout;
        fold w0 in Hout.
      - apply bind_Ok in Hout as (r & w1 & Hx & [= <-]).
        unfold writeError in Hx. repeat case_match; by eexists _, _.
      - apply bind_Panic in Hout as [Hx|(r & w1 & _ & [=])].
        unfold writeError in Hx.
        repeat case_match; by apply write_no_panic in Hx. }
    apply write_Ok in Hw as (Hw & _). exists [EvWrite p r].
    split; [rewrite Hw; unfold w0; simpl; by rewrite <- app_assoc|].
    split; [by repeat constructor|]. simpl. by intros [|].
Qed.

(** ** The option acknowledgement *)

Lemma repeated_numbered_kinds bn ds reps :
  Forall (fun p => isDATA p = true) (repeated (numbered bn ds) reps).
Proof.
  revert bn reps. induction ds as [|d ds IH]; intros bn reps; simpl.
  - constructor.
  - destruct reps as [|r reps]; [constructor|].
    rewrite repeated_cons. apply Forall_app. split; [|apply IH].
    induction r; simpl; by constructor.
Qed.

(** A request with options that [negotiate] accepts.  The first packet of
    the session is the OACK with exactly the accepted options, written one
    to three times, and no other OACK follows.  Unless an ACK for block 0
    was read, nothing follows it but at most the ERROR packet of a failed
    read: no DATA block goes out before the options are acknowledged. *)
Theorem serveRRQ_oack_first {R : Type} `{ReadCloser R} (h : Handler R)
  (fuel : nat) (s s1 : session) (filename : string)
  (options accepted : gmap string string) (w w' : World) (rc : R) :
  ReadFile h zeroUDPAddr filename = inl rc ->
  (0 < size options)%nat ->
  negotiate s options = (inl accepted, s1) ->
  serveRRQ h fuel s filename options w = Ok tt w' ->
  exists tr k rest,
    trace w' = trace w ++ EvReadFile zeroUDPAddr filename :: tr ++ [EvClose] /\
    (1 <= k <= 3)%nat /\
    sent tr = repeat (packetOACK accepted) k ++ rest /\
    Forall (fun p => isOACK p = false) rest /\
    ((forall d, ~ In (EvRead d (inl (packetACK 0))) tr) ->
     rest = [] \/ exists m, rest = [packetERROR 0 m]).
Proof.
  intros Hr Hsz Hn Hrun. unfold serveRRQ in Hrun. rewrite Hr in Hrun.
  unfold bind at 1, record in Hrun.
  apply deferred_Ok in Hrun as (w1 & Hbody & [= <-]).
  destruct (decide (0 < size options)%nat); [|lia]. rewrite Hn in Hbody.
  apply bind_Ok in Hbody as (r & wa & Hx & Hk). simpl in Hx.
  unfold writeAndWaitForPacket in Hx.
  apply attempts_shape in Hx as (tr1 & Ht1 & Hs1). simpl in Ht1.
  destruct r as [q|e].
  - destruct (attempts_accept _ _ _ _ _ Hs1) as (Hv & k & Hk3 & Hsent).
    apply ackValidator_true in Hv. subst q.
    destruct (attempts_accept_last _ _ _ _ _ Hs1) as (pre & d & Hpre & _).
    apply bind_Ok in Hk as (c & wb & Hsb & [= <-]).
    apply sendBlocks_shape in Hsb
      as (tr2 & ds & reps & tail & Ht2 & _ & Hs2 & _ & _ & _ & Htl & _).
    exists (tr1 ++ tr2), k, (sent tr2). split_and!.
    + simpl. rewrite Ht2, Ht1, <- !app_assoc. done.
    + lia.
    + lia.
    + by rewrite sent_app, Hsent.
    + rewrite Hs2. apply Forall_app. split.
      * eapply Forall_impl; [apply repeated_numbered_kinds|].
        by intros [].
      * destruct Htl as [->|[m ->]]; by repeat constructor.
    + intros Hno. destruct (Hno d). apply in_or_app. left.
      rewrite Hpre. apply in_or_app. right. by left.
  - injection Hk as <-.
    destruct (attempts_sent _ _ _ _ _ Hs1) as (k & Hk3 & Hpos & Hsent).
    destruct Hsent as [Hsent|(e' & _ & _ & Hsent)].
    + exists tr1, k, []. rewrite app_nil_r. split_and!; try done; try lia.
      * simpl. rewrite Ht1, <- !app_assoc. done.
      * intros _. by left.
    + exists tr1, k, [packetERROR 0 (Error e')].
      split_and!; try done; try lia.
      * simpl. rewrite Ht1, <- !app_assoc. done.
      * by repeat constructor.
      * intros _. right. by eexists.
Qed.

(** ** The bytes of a file *)



(** ** Error packets end a session *)

Lemma sent_no_error_write tr :
  Forall (fun q => isERROR q = false) (sent tr) ->
  Forall (fun e => ~ isErrorWrite e) tr.
Proof.
  induction tr as [|e tr IH]; intros Hs; [constructor|].
  change (e :: tr) with ([e] ++ tr) in Hs. rewrite sent_app in Hs.
  apply Forall_app in Hs as [He Hs]. constructor; [|by apply IH].
  destruct e as [| p r | |]; simpl; try tauto.
  simpl in He. apply Forall_inv in He.
  destruct p; simpl in *; (discriminate || tauto).
Qed.

Lemma sent_nil_no_error_write tr :
  sent tr = [] -> Forall (fun e => ~ isErrorWrite e) tr.
Proof. intros Hs. apply sent_no_error_write. rewrite Hs. constructor. Qed.

Lemma errorLast_clean tr :
  Forall (fun e => ~ isErrorWrite e) tr -> errorLast tr.
Proof. intros Hc. exists tr, []. rewrite app_nil_r. split_and!; auto. Qed.

Lemma errorLast_app tr1 tr2 :
  Forall (fun e => ~ isErrorWrite e) tr1 -> errorLast tr2 ->
  errorLast (tr1 ++ tr2).
Proof.
  intros Hc (pre & mid & -> & Hpre & Hmid). exists (tr1 ++ pre), mid.
  split_and!; [by rewrite app_assoc|by apply Forall_app|done].
Qed.

Lemma errorLast_one c m r : errorLast [EvWrite (packetERROR c m) r].
Proof. exists [], [EvWrite (packetERROR c m) r]. split_and!; eauto. Qed.

Ltac no_error_writes :=
  repeat (apply List.Forall_cons; [simpl; tauto|]); apply List.Forall_nil.

Lemma await_errorLast v c tr : AwaitShape v c tr -> errorLast tr.
Proof.
  induction 1.
  - apply errorLast_clean. no_error_writes.
  - apply errorLast_clean. no_error_writes.
  - apply errorLast_clean. no_error_writes.
  - apply (errorLast_app [_]); [no_error_writes|apply errorLast_one].
  - apply (errorLast_app [_]); [no_error_writes|done].
Qed.

Lemma attempts_errorLast p v n r tr :
  isERROR p = false -> AttemptsShape p v n r tr -> errorLast tr.
Proof.
  intros Hp. assert (forall r0, ~ isErrorWrite (EvWrite p r0)) as Hw0
    by (intros r0; destruct p; simpl in *; (discriminate || tauto)).
  induction 1.
  - apply errorLast_clean. no_error_writes.
  - apply errorLast_clean. repeat constructor. apply Hw0.
  - apply (errorLast_app [_]); [repeat constructor; apply Hw0|].
    by eapply await_errorLast.
  - apply (errorLast_app (_ :: tr)); [|done]. constructor; [apply Hw0|].
    apply await_next in H as [Hs _]. by apply sent_nil_no_error_write.
Qed.

Lemma attempts_accept_clean p v n q tr :
  isERROR p = false -> AttemptsShape p v n (inl q) tr ->
  Forall (fun e => ~ isErrorWrite e) tr.
Proof.
  intros Hp Hs. apply attempts_accept in Hs as (_ & k & _ & Hsent).
  apply sent_no_error_write. rewrite Hsent.
  apply List.Forall_forall. intros x Hx. apply repeat_spec in Hx. by subst.
Qed.

Lemma sendBlocks_errorLast {R : Type} `{ReadCloser R} n fuel s (rc : R)
  bn w c w' :
  sendBlocks n fuel s rc bn w = Ok c w' ->
  exists tr, trace w' = trace w ++ tr /\ errorLast tr.
Proof.
  revert rc bn w. induction n as [|n IH]; intros rc bn w; simpl; [done|].
  destruct (Read rc (Z.to_nat (blksize s))) as [[data err] rc'].
  destruct (decide (length data = 0%nat)) as [Hz|Hnz].
  - destruct err as [e|]; [|done]. destruct (decide (e = io_EOF)) as [He|He].
    + intros [= <- <-]. exists []. rewrite app_nil_r. split; [done|].
      apply errorLast_clean. no_error_writes.
    + intros Hb. apply bind_Ok in Hb as (r & w1 & Hw & [= <- <-]).
      apply write_Ok in Hw as (Hw & _). eexists. split; [done|].
      apply errorLast_one.
  - intros Hb. apply bind_Ok in Hb as (r & w1 & Hx & Hk).
    apply attempts_shape in Hx as (tr1 & Ht1 & Hs1).
    destruct r as [q|e].
    + apply IH in Hk as (tr2 & Ht2 & Hs2). exists (tr1 ++ tr2). split.
      * by rewrite Ht2, Ht1, <- app_assoc.
      * apply errorLast_app; [|done].
        refine (attempts_accept_clean _ _ _ _ _ _ Hs1); reflexivity.
    + injection Hk as <- <-. exists tr1. split; [done|].
      refine (attempts_errorLast _ _ _ _ _ _ Hs1); reflexivity.
Qed.

Lemma serveRRQ_errorLast {R : Type} `{ReadCloser R} (h : Handler R) fuel s
  filename (options : gmap string string) w w' :
  serveRRQ h fuel s filename options w = Ok tt w' ->
  exists tr post,
    trace w' = trace w ++ EvReadFile zeroUDPAddr filename :: tr ++ post /\
    errorLast tr /\ (post = [] \/ post = [EvClose]).
Proof.
  unfold serveRRQ. intros Hb.
  apply bind_Ok in Hb as ([] & w0 & [= <-] & Hk). simpl in Hk.
  set (w0 := mkWorld _ _ _ _ _) in Hk.
  destruct (ReadFile h zeroUDPAddr filename) as [rc|err].
  - apply deferred_Ok in Hk as (w1 & Hbody & [= <-]).
    assert (exists tr, trace w1 = trace w0 ++ tr /\ errorLast tr)
      as (tr & Ht & Hel).
    { assert (forall s1 wa wb,
        (sendBlocks fuel fuel s1 rc 1 ;;; ret tt) wa = Ok tt wb ->
        exists tr, trace wb = trace wa ++ tr /\ errorLast tr) as Htr.
      { intros s1 wa wb Hx. apply bind_Ok in Hx as (c & wc & Hx & [= <-]).
        by apply sendBlocks_errorLast in Hx. }
      destruct (decide (0 < size options)%nat); [|by eapply Htr].
      destruct (negotiate s options) as [[accepted|err] s1].
      - apply bind_Ok in Hbody as (r & wa & Hx & Hk).
        apply attempts_shape in Hx as (tr1 & Ht1 & Hs1).
        destruct r as [q|e].
        + apply Htr in Hk as (tr2 & Ht2 & Hel2). exists (tr1 ++ tr2).
          split; [by rewrite Ht2, Ht1, <- app_assoc|].
          apply errorLast_app; [|done].
          refine (attempts_accept_clean _ _ _ _ _ _ Hs1); reflexivity.
        + injection Hk as <-. exists tr1. split; [done|].
          refine (attempts_errorLast _ _ _ _ _ _ Hs1); reflexivity.
      - apply bind_Ok in Hbody as (r & wa & Hx & [= <-]).
        apply write_Ok in Hx as (Hx & _). eexists. split; [done|].
        apply errorLast_one. }
    exists tr, [EvClose]. split; [|split; [done|by right]].
    simpl. rewrite Ht. unfold w0. simpl. by rewrite <- !app_assoc.
  - apply bind_Ok in Hk as (r & w1 & Hx & [= <-]).
    assert (exists c, write (packetERROR c (Error err)) w0 = Ok r w1)
      as [c Hw].
    { unfold writeError in Hx. repeat case_match; by eexists. }
    apply write_Ok in Hw as (Hw & _).
    exists [EvWrite (packetERROR c (Error err)) r], [].
    split; [|split; [apply errorLast_one|by left]].
    rewrite Hw. unfold w0. simpl. by rewrite <- !app_assoc.
Qed.

(** In a session that returns, an ERROR packet is written at most once, and
    once it is written the session reads and writes no more: all that may
    follow is the closing of the stream. *)
Theorem serve_error_is_last {R : Type} `{ReadCloser R} (h : Handler R)
  (fuel : nat) (w w' : World) :
  serve h fuel w = Ok tt w' ->
  exists pre mid post,
    trace w' = trace w ++ pre ++ mid ++ post /\
    Forall (fun e => ~ isErrorWrite e) pre /\
    (mid = [] \/ exists c m r, mid = [EvWrite (packetERROR c m) r]) /\
    (post = [] \/ post = [EvClose]).
Proof.
  unfold serve. intros Hb. apply bind_Ok in Hb as (r & w1 & Hr & Hk).
  apply read_Ok in Hr as (Ht1 & _).
  assert (forall c m wr w2,
    write (packetERROR c m) w1 = Ok wr w2 -> w' = w2 ->
    exists pre mid post,
      trace w' = trace w ++ pre ++ mid ++ post /\
      Forall (fun e => ~ isErrorWrite e) pre /\
      (mid = [] \/ exists c m r, mid = [EvWrite (packetERROR c m) r]) /\
      (post = [] \/ post = [EvClose])) as Herr.
  { intros c m wr w2 Hw ->. apply write_Ok in Hw as (Hw & _).
    exists [EvRead 0 r], [EvWrite (packetERROR c m) wr], [].
    split_and!; [|no_error_writes|by eauto|by left].
    rewrite Hw, Ht1, <- app_assoc. done. }
  destruct r as [p|err].
  - destruct p as [f o|f o| | | |].
    + apply serveRRQ_errorLast in Hk
        as (tr & post & Ht & (pre & mid & -> & Hpre & Hmid) & Hpost).
      exists (EvRead 0 (inl (packetRRQ f o)) :: EvReadFile zeroUDPAddr f :: pre),
             mid, post.
      split_and!; try done.
      * rewrite Ht, Ht1, <- !app_assoc. done.
      * repeat (apply List.Forall_cons; [simpl; tauto|]). done.
    + unfold serveWRQ in Hk.
      apply bind_Ok in Hk as (wr & w2 & Hw & [= <-]). by eapply Herr.
    + apply bind_Ok in Hk as (wr & w2 & Hw & [= <-]). by eapply Herr.
    + apply bind_Ok in Hk as (wr & w2 & Hw & [= <-]). by eapply Herr.
    + apply bind_Ok in Hk as (wr & w2 & Hw & [= <-]). by eapply Herr.
    + apply bind_Ok in Hk as (wr & w2 & Hw & [= <-]). by eapply Herr.
  - apply bind_Ok in Hk as (wr & w2 & Hw & [= <-]). by eapply Herr.
Qed.

(** ** The time an exchange waits *)

Lemma awaitReply_positive fuel v end_ now w c w' :
  awaitReply fuel v end_ now w = Ok c w' ->
  exists tr, trace w' = trace w ++ tr /\ Forall readPositive tr.
Proof.
  revert now w. induction fuel as [|fuel IH]; intros now w; simpl; [done|].
  destruct (now <? end_)%Z eqn:Hlt.
  2:{ intros [= <- <-]. exists []. by rewrite app_nil_r. }
  apply Z.ltb_lt in Hlt.
  intros Hb. apply bind_Ok in Hb as (r & w1 & Hr & Hk).
  apply read_Ok in Hr as (Ht & _).
  assert (readPositive (EvRead (end_ - now) r)) as Hhere by (simpl; lia).
  destruct r as [q|err].
  - destruct (v q).
    + injection Hk as <- <-. eexists. split; [done|]. by repeat constructor.
    + apply bind_Ok in Hk as (now' & w2 & [= <- <-] & Hk).
      apply IH in Hk as (tr & Ht' & Hall). eexists (_ :: tr).
      split; [by rewrite Ht', Ht, <- app_assoc|]. by constructor.
  - destruct (decide (err = ErrTimeout)).
    + injection Hk as <- <-. eexists. split; [done|]. by repeat constructor.
    + apply bind_Ok in Hk as (wr & w2 & Hw & [= <- <-]).
      apply write_Ok in Hw as (Hw & _). eexists [_; _].
      split; [by rewrite Hw, Ht, <- app_assoc|]. by repeat constructor.
Qed.

Ltac within :=
  repeat (apply List.Forall_cons; [simpl; (lia || tauto)|]);
  apply List.Forall_nil.

Lemma awaitReply_within fuel v end_ T now w c w' :
  awaitReply fuel v end_ now w = Ok c w' ->
  now = clock w -> end_ - now <= T ->
  Forall (fun i => 0 <= elapsed i) (inbox w) ->
  exists tr,
    trace w' = trace w ++ tr /\
    Forall (readWithin T) tr /\
    Forall (fun i => 0 <= elapsed i) (inbox w').
Proof.
  revert now w c w'. induction fuel as [|fuel IH]; intros now w c w'; simpl; [done|].
  destruct (now <? end_)%Z eqn:Hlt.
  2:{ intros [= <- <-] _ _ Hall. exists []. by rewrite app_nil_r. }
  apply Z.ltb_lt in Hlt. intros Hb Hnow HT Hall.
  assert (forall r, readWithin T (EvRead (end_ - now) r)) as Hhere
    by (intros r; simpl; lia).
  assert (forall e : Event, readWithin T e -> Forall (readWithin T) [e])
    as Hone by (intros e0 He0; by repeat constructor).
  unfold bind at 1, read in Hb.
  destruct (inbox w) as [|i rest] eqn:Hin.
  - destruct (decide (ErrTimeout = ErrTimeout)); [|done].
    injection Hb as <- <-. eexists [_]. simpl.
    split; [done|]. split; [within|constructor].
  - apply Forall_cons in Hall as [Hi Hrest].
    destruct (reply i) as [q|err] eqn:Hrep.
    + destruct (v q).
      * injection Hb as <- <-. eexists [_]. simpl.
        split; [done|]. split; [within|done].
      * unfold bind at 1, Now in Hb. simpl in Hb.
        apply IH in Hb as (tr & Ht' & Hall' & Hin'); simpl; try done; [|lia].
        exists (EvRead (end_ - now) (inl q) :: tr). simpl in Ht'.
        split; [by rewrite Ht', <- app_assoc|]. split; [|done].
        constructor; [apply Hhere|done].
    + destruct (decide (err = ErrTimeout)).
      * injection Hb as <- <-. eexists [_]. simpl.
        split; [done|]. split; [within|done].
      * apply bind_Ok in Hb as (wr & w2 & Hw & [= <- <-]).
        apply write_Ok in Hw as (Hw & Hin2 & _). simpl in Hw, Hin2.
        eexists [_; _].
        split; [by rewrite Hw, <- app_assoc|].
        split; [within|by rewrite Hin2].
Qed.

(** Inside an exchange the transport is never asked to wait a time of zero
    or less.  When no read makes the clock run backwards, no read is asked
    to wait longer than the session's timeout either. *)
Theorem writeAndWaitForPacket_waits (fuel : nat) (s : session) (p : packet)
  (v : packetValidator) (w w' : World) (r : packet + error) :
  writeAndWaitForPacket fuel s p v w = Ok r w' ->
  exists tr,
    trace w' = trace w ++ tr /\
    Forall readPositive tr /\
    (Forall (fun i => 0 <= elapsed i) (inbox w) ->
     Forall (readWithin (timeout s * Second)) tr).
Proof.
  unfold writeAndWaitForPacket. generalize 3%nat as n.
  intros n. revert w. induction n as [|n IH]; intros w; simpl.
  - intros [= <- <-]. exists []. rewrite app_nil_r. by split_and!.
  - intros Hb. apply bind_Ok in Hb as (e & w1 & Hw & Hk).
    apply write_Ok in Hw as (Hw & Hin1 & Hc1 & _).
    destruct e as [e|].
    + injection Hk as <- <-. eexists [_]. split; [done|].
      split; [by repeat constructor|]. intros _. by repeat constructor.
    + apply bind_Ok in Hk as (now & w2 & [= <- <-] & Hk).
      apply bind_Ok in Hk as (c & w3 & Ha & Hk).
      pose proof (awaitReply_positive _ _ _ _ _ _ _ Ha) as (tr & Ht & Hpos).
      assert (Forall (fun i => 0 <= elapsed i) (inbox w) ->
              Forall (readWithin (timeout s * Second)) tr /\
              Forall (fun i => 0 <= elapsed i) (inbox w3)) as Hwithin.
      { intros Hall. rewrite <- Hin1 in Hall.
        destruct (awaitReply_within _ _ _ (timeout s * Second) _ _ _ _ Ha
                    eq_refl ltac:(lia) Hall) as (tr' & Ht' & Hw' & Hin').
        rewrite Ht in Ht'. apply app_inv_head in Ht'. by subst tr'. }
      destruct c as [|r0].
      * apply IH in Hk as (tr2 & Ht2 & Hpos2 & Hw2).
        exists (EvWrite p None :: tr ++ tr2).
        split; [rewrite Ht2, Ht, Hw, <- !app_assoc; done|].
        split; [constructor; [done|by apply Forall_app]|].
        intros Hall. destruct (Hwithin Hall) as [Hw1 Hin3].
        constructor; [done|]. apply Forall_app. split; [done|by apply Hw2].
      * injection Hk as <- <-. exists (EvWrite p None :: tr).
        split; [rewrite Ht, Hw, <- !app_assoc; done|].
        split; [by constructor|]. intros Hall.
        destruct (Hwithin Hall) as [Hw1 _]. by constructor.
Qed.

(** ** The size of a block *)




(** ** The further properties at sample sessions *)

Lemma serve_read_error_witness :
  read 0 (sampleWorld [])
  = Ok (inr ErrTimeout) (mkWorld peerA [] [] 0 [EvRead 0 (inr ErrTimeout)]) /\
  exists wr w',
    serve (dirHandler sampleDir) 4 (sampleWorld []) = Ok tt w' /\
    trace w' =
      [EvRead 0 (inr ErrTimeout); EvWrite (packetERROR 0 "timeout") wr].
Proof.
  split; [reflexivity|].
  destruct (serve_read_error (dirHandler sampleDir) 4 (sampleWorld [])
              (mkWorld peerA [] [] 0 [EvRead 0 (inr ErrTimeout)])
              ErrTimeout eq_refl) as (wr & w' & Hrun & Ht & _).
  exists wr, w'. split; [exact Hrun|exact Ht].
Defined.

Lemma serve_illegal_operation_witness :
  exists w1 wr w',
    read 0 (sampleWorld [from (packetACK 3)]) = Ok (inl (packetACK 3)) w1 /\
    serve (dirHandler sampleDir) 4 (sampleWorld [from (packetACK 3)])
    = Ok tt w' /\
    trace w' =
      [EvRead 0 (inl (packetACK 3)); EvWrite (packetERROR 4 EmptyString) wr].
Proof.
  eexists.
  destruct (serve_illegal_operation (dirHandler sampleDir) 4
              (sampleWorld [from (packetACK 3)]) _ (packetACK 3) eq_refl)
    as (wr & w' & Hrun & Ht & _); [done|done|].
  exists wr, w'. split; [reflexivity|]. split; [exact Hrun|exact Ht].
Defined.

Lemma writeAndWaitForPacket_write_failure_witness :
  hd None (wres brokenWorld) = Some (errorString "network is unreachable") /\
  writeAndWaitForPacket 2 newSession (packetDATA 1 file5) (ackValidator 1)
    brokenWorld
  = Ok (inr (errorString "network is unreachable"))
       (mkWorld peerA [] [] 0
          [EvWrite (packetDATA 1 file5)
             (Some (errorString "network is unreachable"))]).
Proof.
  split; [reflexivity|].
  destruct (writeAndWaitForPacket_write_failure 2 newSession
              (packetDATA 1 file5) (ackValidator 1) brokenWorld) as [Hfirst _].
  exact (Hfirst _ eq_refl).
Defined.

Lemma writeAndWaitForPacket_accepts_witness :
  exists w' pre d k,
    writeAndWaitForPacket 2 newSession (packetDATA 1 file5) (ackValidator 1)
      (sampleWorld [from (packetACK 9); from (packetACK 1)])
    = Ok (inl (packetACK 1)) w' /\
    trace w' = pre ++ [EvRead d (inl (packetACK 1))] /\
    sent pre = repeat (packetDATA 1 file5) k /\ (1 <= k <= 3)%nat.
Proof.
  destruct (writeAndWaitForPacket 2 newSession (packetDATA 1 file5)
              (ackValidator 1)
              (sampleWorld [from (packetACK 9); from (packetACK 1)]))
    as [[q|e] w'|w'|] eqn:Hrun;
    [|vm_compute in Hrun; discriminate Hrun..].
  destruct (writeAndWaitForPacket_accepts _ _ _ _ _ _ _ Hrun)
    as (Hv & pre & d & k & Ht & _ & Hs & Hk).
  apply ackValidator_true in Hv. subst q.
  exists w', pre, d, k. split; [reflexivity|].
  split; [exact Ht|]. split; [exact Hs|exact Hk].
Defined.

Lemma writeAndWaitForPacket_retry_witness :
  (0 < 2)%nat /\ 0 < timeout newSession /\
  exists w' tr,
    writeAndWaitForPacket 2 newSession (packetDATA 1 file5) (ackValidator 1)
      (sampleWorld [silence 7; silence 7; from (packetACK 1)])
    = Ok (inl (packetACK 1)) w' /\
    trace w' = tr /\ inbox w' = [] /\
    sent tr = [packetDATA 1 file5; packetDATA 1 file5; packetDATA 1 file5].
Proof.
  split; [lia|]. split; [simpl; lia|].
  destruct (writeAndWaitForPacket_retry 2 newSession (packetDATA 1 file5)
              (ackValidator 1)
              (sampleWorld [silence 7; silence 7; from (packetACK 1)])
              [7; 7] 1000000 (packetACK 1) [])
    as (w' & tr & Ht & Hok & _);
    [lia|simpl; lia|constructor|reflexivity|reflexivity|].
  destruct Hok as (Hrun & Hin & Hs); [simpl; lia|].
  exists w', tr. split; [exact Hrun|]. split; [exact Ht|].
  split; [exact Hin|exact Hs].
Defined.

Lemma negotiate_recognised_only_witness :
  negotiate newSession {[ "tsize" := "0"; "blksize" := "1428" ]}
  = negotiate newSession {[ "blksize" := "1428" ]} /\
  negotiate newSession {[ "tsize" := "0" ]} = (inl ∅, newSession).
Proof.
  split.
  - destruct (negotiate_recognised_only newSession {[ "blksize" := "1428" ]})
      as (Hsame & _). apply Hsame; reflexivity.
  - destruct (negotiate_recognised_only newSession {[ "tsize" := "0" ]})
      as (_ & _ & Hnone). apply Hnone; reflexivity.
Defined.

Lemma negotiate_in_range_witness :
  inRange newSession /\
  inRange (negotiate newSession {[ "blksize" := "4"; "timeout" := "soon" ]}).2.
Proof.
  assert (inRange newSession) as Hr by (unfold inRange; simpl; lia).
  split; [exact Hr|].
  exact (proj1 (negotiate_in_range newSession
                  {[ "blksize" := "4"; "timeout" := "soon" ]} Hr)).
Defined.

Lemma negotiate_accepted_again_witness :
  negotiate newSession sampleOptions
  = (inl {[ "blksize" := "65464"; "timeout" := "1" ]}, mkSession 65464 1) /\
  negotiate (mkSession 65464 1) {[ "blksize" := "65464"; "timeout" := "1" ]}
  = (inl {[ "blksize" := "65464"; "timeout" := "1" ]}, mkSession 65464 1).
Proof.
  assert (negotiate newSession sampleOptions
          = (inl {[ "blksize" := "65464"; "timeout" := "1" ]},
             mkSession 65464 1)) as Hn by (vm_compute; reflexivity).
  split; [exact Hn|].
  exact (negotiate_accepted_again newSession sampleOptions _ _ Hn).
Defined.

Lemma sendBlocks_in_order_witness :
  0 <= 1 < 65536 /\
  exists w' tr ds reps tail,
    sendBlocks 3 1 (mkSession 8 3) file16 1
      (sampleWorld [from (packetACK 1); from (packetACK 2)]) = Ok Next w' /\
    trace w' = tr /\
    sent tr = repeated (numbered 1 ds) reps ++ tail /\
    Forall (fun d => (0 < length d <= 8)%nat) ds /\
    tail = [].
Proof.
  split; [lia|].
  destruct (sendBlocks 3 1 (mkSession 8 3) file16 1
              (sampleWorld [from (packetACK 1); from (packetACK 2)]))
    as [c w'|w'|] eqn:Hrun; [|vm_compute in Hrun; discriminate Hrun..].
  assert (c = Next) as -> by (vm_compute in Hrun; by injection Hrun as <-).
  destruct (sendBlocks_in_order 3 1 (mkSession 8 3) file16 1 _ _ _
              ltac:(lia) Hrun)
    as (tr & ds & reps & tail & Ht & Hs & _ & _ & Hd & _ & _ & Hc).
  exists w', tr, ds, reps, tail. split; [reflexivity|].
  split; [exact Ht|]. split; [exact Hs|]. split; [exact Hd|exact (Hc eq_refl)].
Defined.

Lemma serveRRQ_empty_read_witness :
  ReadFile (dirHandler emptyDir) zeroUDPAddr "empty" = inl [] /\
  Read ([] : list Byte.byte) (Z.to_nat (blksize newSession))
  = (([], Some io_EOF), []) /\
  (0 < 4)%nat /\
  serveRRQ (dirHandler emptyDir) 4 newSession "empty" ∅ (sampleWorld [])
  = Ok tt (mkWorld peerA [] [] 0 [EvReadFile zeroUDPAddr "empty"; EvClose]).
Proof.
  split; [reflexivity|]. split; [reflexivity|]. split; [lia|].
  exact (serveRRQ_empty_read (dirHandler emptyDir) 4 newSession "empty"
           (sampleWorld []) [] [] (Some io_EOF) eq_refl eq_refl ltac:(lia)).
Defined.

Lemma serveRRQ_closes_witness :
  exists w' tr,
    serveRRQ (dirHandler sampleDir) 4 newSession "motd" ∅ (sampleWorld [])
    = Ok tt w' /\
    trace w' = EvReadFile zeroUDPAddr "motd" :: tr ++ [EvClose] /\
    ~ In EvClose tr.
Proof.
  destruct (serveRRQ (dirHandler sampleDir) 4 newSession "motd" ∅
              (sampleWorld [])) as [[] w'|w'|] eqn:Hrun;
    [|vm_compute in Hrun; discriminate Hrun..].
  pose proof (serveRRQ_closes (dirHandler sampleDir) 4 newSession "motd" ∅
                (sampleWorld []) w' (or_introl Hrun)) as Hc.
  simpl in Hc. destruct Hc as (tr & Ht & _ & Hno).
  exists w', tr. split; [reflexivity|]. split; [exact Ht|exact Hno].
Defined.

Lemma serveRRQ_oack_first_witness :
  exists w' tr k rest,
    serveRRQ (dirHandler sampleDir) 4 newSession "motd" {[ "tsize" := "0" ]}
      (sampleWorld [from (packetACK 0); from (packetACK 1)]) = Ok tt w' /\
    trace w' = EvReadFile zeroUDPAddr "motd" :: tr ++ [EvClose] /\
    (1 <= k <= 3)%nat /\
    sent tr = repeat (packetOACK ∅) k ++ rest.
Proof.
  destruct (serveRRQ (dirHandler sampleDir) 4 newSession "motd"
              {[ "tsize" := "0" ]}
              (sampleWorld [from (packetACK 0); from (packetACK 1)]))
    as [[] w'|w'|] eqn:Hrun; [|vm_compute in Hrun; discriminate Hrun..].
  destruct (serveRRQ_oack_first (dirHandler sampleDir) 4 newSession newSession
              "motd" {[ "tsize" := "0" ]} ∅ _ w' file5
              eq_refl ltac:(rewrite map_size_singleton; lia) eq_refl Hrun)
    as (tr & k & rest & Ht & Hk & Hs & _).
  exists w', tr, k, rest. split; [reflexivity|].
  split; [exact Ht|]. split; [exact Hk|exact Hs].
Defined.


Lemma serve_error_is_last_witness :
  exists w' pre mid post,
    serve (dirHandler sampleDir) 4
      (sampleWorld [from (packetRRQ "nosuch" ∅)]) = Ok tt w' /\
    trace w' = pre ++ mid ++ post /\
    Forall (fun e => ~ isErrorWrite e) pre /\
    (mid = [] \/ exists c m r, mid = [EvWrite (packetERROR c m) r]) /\
    (post = [] \/ post = [EvClose]).
Proof.
  destruct (serve (dirHandler sampleDir) 4
              (sampleWorld [from (packetRRQ "nosuch" ∅)]))
    as [[] w'|w'|] eqn:Hrun; [|vm_compute in Hrun; discriminate Hrun..].
  destruct (serve_error_is_last _ _ _ _ Hrun)
    as (pre & mid & post & Ht & Hpre & Hmid & Hpost).
  exists w', pre, mid, post. split; [reflexivity|].
  split; [exact Ht|]. split; [exact Hpre|]. split; [exact Hmid|exact Hpost].
Defined.

Lemma writeAndWaitForPacket_waits_witness :
  exists r w' tr,
    writeAndWaitForPacket 3 newSession (packetDATA 1 file5) (ackValidator 1)
      (sampleWorld [from (packetACK 9); from (packetACK 1)]) = Ok r w' /\
    trace w' = tr /\
    Forall (readWithin (3 * Second)) tr.
Proof.
  destruct (writeAndWaitForPacket 3 newSession (packetDATA 1 file5)
              (ackValidator 1)
              (sampleWorld [from (packetACK 9); from (packetACK 1)]))
    as [r w'|w'|] eqn:Hrun; [|vm_compute in Hrun; discriminate Hrun..].
  destruct (writeAndWaitForPacket_waits _ _ _ _ _ _ _ Hrun)
    as (tr & Ht & _ & Hw).
  exists r, w', tr. split; [reflexivity|]. split; [exact Ht|].
  apply Hw. repeat constructor; simpl; lia.
Defined.

